(** * chisel client: connection lifecycle and handshake

    A shallow embedding of [client/client.go] (package [chclient]) and the
    properties of its configuration resolver, host-key verification, single
    connection attempt, reconnection loop and lifecycle operations.

    Go strings are byte strings: they are modelled as [string] (lists of
    [ascii], one per byte).  [time.Duration] is a signed 64-bit count of
    nanoseconds, modelled as [Z]. *)

From Stdlib Require Import String Ascii List ZArith Bool Lia.
Import ListNotations.

Local Open Scope string_scope.
Local Open Scope nat_scope.

(** ** Package [strings] (Go standard library), the functions the client uses *)

Module strings.

(** [strings.HasPrefix(s, prefix)] *)
Fixpoint HasPrefix (s prefix : string) {struct prefix} : bool :=
  match prefix, s with
  | EmptyString, _ => true
  | String _ _, EmptyString => false
  | String p prefix', String c s' => Ascii.eqb c p && HasPrefix s' prefix'
  end.

(** [strings.Contains(s, substr)] *)
Fixpoint Contains (s substr : string) : bool :=
  HasPrefix s substr ||
  match s with
  | EmptyString => false
  | String _ s' => Contains s' substr
  end.

(** [strings.Index(s, substr)], [None] standing for [-1] *)
Fixpoint Index (s substr : string) : option nat :=
  if HasPrefix s substr then Some O
  else match s with
       | EmptyString => None
       | String _ s' => option_map S (Index s' substr)
       end.

(** [strings.LastIndex(s, substr)], [None] standing for [-1] *)
Fixpoint LastIndex (s substr : string) : option nat :=
  match s with
  | EmptyString => if HasPrefix s substr then Some O else None
  | String _ s' =>
      match LastIndex s' substr with
      | Some i => Some (S i)
      | None => if HasPrefix s substr then Some O else None
      end
  end.

(** [s[:i]] and [s[i:]] *)
Definition take (i : nat) (s : string) : string := substring 0 i s.
Definition drop (i : nat) (s : string) : string :=
  substring i (String.length s - i) s.

(** [strings.Cut(s, sep)]: the text before and after the first [sep] *)
Definition Cut (s sep : string) : string * string * bool :=
  match Index s sep with
  | Some i => (take i s, drop (i + String.length sep) s, true)
  | None => (s, "", false)
  end.

(** [strings.Replace(s, old, new, 1)]: only the first occurrence is replaced;
    an empty [old] matches at the beginning of the string. *)
Definition Replace1 (s old new : string) : string :=
  match Index s old with
  | Some i => take i s ++ new ++ drop (i + String.length old) s
  | None => s
  end.

(** [strings.ToLower] on the ASCII range (the only bytes a URL scheme holds) *)
Definition lower (c : ascii) : ascii :=
  let n := nat_of_ascii c in
  if (Nat.leb 65 n && Nat.leb n 90)%bool then ascii_of_nat (n + 32) else c.

Fixpoint ToLower (s : string) : string :=
  match s with
  | EmptyString => EmptyString
  | String c s' => String (lower c) (ToLower s')
  end.

(** [strings.Count(s, substr)] for a one-byte [substr] *)
Fixpoint CountByte (s : string) (b : ascii) : nat :=
  match s with
  | EmptyString => O
  | String c s' => (if Ascii.eqb c b then 1 else 0) + CountByte s' b
  end.

(** [strings.HasSuffix(s, suffix)] *)
Definition HasSuffix (s suffix : string) : bool :=
  Nat.leb (String.length suffix) (String.length s) &&
  String.eqb (drop (String.length s - String.length suffix) s) suffix.

End strings.

(** ** The regular expression [:\d+$] of [NewClient]

    [regexp.MustCompile(`:\d+$`).MatchString(host)]: some suffix of [host] is a
    colon followed by one or more ASCII digits ([\d] is [[0-9]] and, without
    the [m] flag, [$] matches at the end of the text only). *)

Definition is_digit (c : ascii) : bool :=
  let n := nat_of_ascii c in (Nat.leb 48 n && Nat.leb n 57)%bool.

Fixpoint all_digits (s : string) : bool :=
  match s with
  | EmptyString => true
  | String c s' => is_digit c && all_digits s'
  end.

Definition colon_digits (s : string) : bool :=
  match s with
  | String ":" (String c s') => is_digit c && all_digits s'
  | _ => false
  end.

Fixpoint matchPort (host : string) : bool :=
  colon_digits host ||
  match host with
  | EmptyString => false
  | String _ s' => matchPort s'
  end.

(** ** Package [net/url] (Go standard library): [url.Parse]

    [NewClient] reads two fields of the parsed URL, [Scheme] and [Host], and
    whether parsing failed ([setProxy] also reads [User]).  The parser below
    follows [url.Parse] step by step; errors are kept as a data type instead
    of their text. *)

Module url.

(** [url.Userinfo]: username and, when one is set, password *)
Record Userinfo := {
  username : string;
  password : option string
}.

Record URL := {
  Scheme : string;
  Opaque : string;
  User : option Userinfo;
  Host : string;
  Path : string;
  RawQuery : string;
  Fragment : string
}.

Inductive ParseError :=
| InvalidControlCharacter      (* invalid control character in URL *)
| MissingProtocolScheme        (* missing protocol scheme *)
| FirstPathSegmentColon        (* first path segment in URL cannot contain colon *)
| InvalidPort (colonPort : string)  (* invalid port %q after host *)
| MissingBracket               (* missing ']' in host *)
| EscapeError (s : string)     (* invalid URL escape *)
| InvalidHostError (s : string)     (* invalid character in host name *)
| InvalidUserinfo.             (* net/url: invalid userinfo *)

Inductive encoding :=
| encodePath | encodeHost | encodeZone | encodeUserPassword | encodeFragment.

Definition byte_in (lo hi : nat) (c : ascii) : bool :=
  let n := nat_of_ascii c in Nat.leb lo n && Nat.leb n hi.

Definition is_alpha (c : ascii) : bool :=
  byte_in 97 122 c || byte_in 65 90 c.

Definition one_of (c : ascii) (set : string) : bool :=
  strings.Contains set (String c EmptyString).

(** [stringContainsCTLByte]: a byte below 0x20 or equal to 0x7f *)
Fixpoint stringContainsCTLByte (s : string) : bool :=
  match s with
  | EmptyString => false
  | String c s' =>
      Nat.ltb (nat_of_ascii c) 32 || Nat.eqb (nat_of_ascii c) 127
      || stringContainsCTLByte s'
  end.

(** [getScheme]: the scan stops at the first colon (a scheme, unless the
    colon is the first byte), at a digit, [+], [-] or [.] in first position,
    or at any byte that a scheme cannot hold. *)
Inductive scheme_scan :=
| NoScheme
| ColonFirst
| SchemeAt (scheme rest : string).

Fixpoint scanScheme (first : bool) (s : string) : scheme_scan :=
  match s with
  | EmptyString => NoScheme
  | String c s' =>
      let continue :=
        match scanScheme false s' with
        | SchemeAt scheme rest => SchemeAt (String c scheme) rest
        | other => other
        end in
      if is_alpha c then continue
      else if is_digit c || one_of c "+-." then
        if first then NoScheme else continue
      else if Ascii.eqb c ":" then
        if first then ColonFirst else SchemeAt EmptyString s'
      else NoScheme
  end.

Definition getScheme (rawURL : string) : ParseError + string * string :=
  match scanScheme true rawURL with
  | NoScheme => inr (EmptyString, rawURL)
  | ColonFirst => inl MissingProtocolScheme
  | SchemeAt scheme rest => inr (scheme, rest)
  end.

Definition ishex (c : ascii) : bool :=
  is_digit c || byte_in 97 102 c || byte_in 65 70 c.

Definition unhex (c : ascii) : nat :=
  let n := nat_of_ascii c in
  if is_digit c then n - 48
  else if byte_in 97 102 c then n - 97 + 10
  else if byte_in 65 70 c then n - 65 + 10
  else 0.

(** [shouldEscape(c, encodeHost)]: the bytes a host may not hold verbatim *)
Definition shouldEscapeHost (c : ascii) : bool :=
  negb (is_alpha c || is_digit c
        || one_of c "!$&'()*+,;=:[]<>" || Ascii.eqb c (ascii_of_nat 34)
        || one_of c "-_.~").

Definition percent25 (a b : ascii) : bool := Ascii.eqb a "2" && Ascii.eqb b "5".

(** [unescape(s, mode)] for the modes [Parse] uses: checks the percent
    escapes (and, in a host, the other bytes), then decodes them. *)
Fixpoint unescape (s : string) (mode : encoding) : ParseError + string :=
  let keep c r :=
    match r with inr t => inr (String c t) | inl e => inl e end in
  match s with
  | EmptyString => inr EmptyString
  | String "%" rest =>
      match rest with
      | String a (String b rest') =>
          let esc := String "%" (String a (String b EmptyString)) in
          let v := ascii_of_nat (unhex a * 16 + unhex b) in
          if negb (ishex a && ishex b) then inl (EscapeError esc)
          else
            match mode with
            | encodeHost =>
                if Nat.ltb (unhex a) 8 && negb (percent25 a b)
                then inl (EscapeError esc) else keep v (unescape rest' mode)
            | encodeZone =>
                if negb (percent25 a b) && negb (Ascii.eqb v " ")
                   && shouldEscapeHost v
                then inl (EscapeError esc) else keep v (unescape rest' mode)
            | _ => keep v (unescape rest' mode)
            end
      | _ => inl (EscapeError (strings.take 3 s))
      end
  | String c rest =>
      match mode with
      | encodeHost | encodeZone =>
          if Nat.ltb (nat_of_ascii c) 128 && shouldEscapeHost c
          then inl (InvalidHostError (String c EmptyString))
          else keep c (unescape rest mode)
      | _ => keep c (unescape rest mode)
      end
  end.

(** [validOptionalPort]: empty, or a colon followed by digits only *)
Definition validOptionalPort (port : string) : bool :=
  match port with
  | EmptyString => true
  | String c digits => Ascii.eqb c ":" && all_digits digits
  end.

Definition bind {A B : Type} (r : ParseError + A) (k : A -> ParseError + B)
  : ParseError + B :=
  match r with inl e => inl e | inr a => k a end.

Notation "x <- r ;; k" := (bind r (fun x => k))
  (at level 61, r at next level, right associativity).
Notation "' p <- r ;; k" := (bind r (fun x => match x with p => k end))
  (at level 61, p pattern, r at next level, right associativity).

(** [parseHost] *)
Definition parseHost (host : string) : ParseError + string :=
  let plain := unescape host encodeHost in
  if strings.HasPrefix host "[" then
    match strings.LastIndex host "]" with
    | None => inl MissingBracket
    | Some i =>
        let colonPort := strings.drop (i + 1) host in
        if negb (validOptionalPort colonPort) then inl (InvalidPort colonPort)
        else
          match strings.Index (strings.take i host) "%25" with
          | Some zone =>
              host1 <- unescape (strings.take zone host) encodeHost ;;
              host2 <- unescape (strings.take (i - zone) (strings.drop zone host))
                                encodeZone ;;
              host3 <- unescape (strings.drop i host) encodeHost ;;
              inr (host1 ++ host2 ++ host3)
          | None => plain
          end
    end
  else
    match strings.LastIndex host ":" with
    | Some i =>
        let colonPort := strings.drop i host in
        if negb (validOptionalPort colonPort) then inl (InvalidPort colonPort)
        else plain
    | None => plain
    end.

(** [validUserinfo] *)
Fixpoint validUserinfo (s : string) : bool :=
  match s with
  | EmptyString => true
  | String c s' =>
      (is_alpha c || is_digit c || one_of c "-._:~!$&'()*+,;=%@")
      && validUserinfo s'
  end.

(** [parseAuthority] *)
Definition parseAuthority (authority : string)
  : ParseError + option Userinfo * string :=
  match strings.LastIndex authority "@" with
  | None => host <- parseHost authority ;; inr (None, host)
  | Some i =>
      host <- parseHost (strings.drop (i + 1) authority) ;;
      let userinfo := strings.take i authority in
      if negb (validUserinfo userinfo) then inl InvalidUserinfo
      else if negb (strings.Contains userinfo ":") then
        userinfo <- unescape userinfo encodeUserPassword ;;
        inr (Some {| username := userinfo; password := None |}, host)
      else
        let '(name, pass, _) := strings.Cut userinfo ":" in
        name <- unescape name encodeUserPassword ;;
        pass <- unescape pass encodeUserPassword ;;
        inr (Some {| username := name; password := Some pass |}, host)
  end.

(** [parse(rawURL, viaRequest = false)] *)
Definition parse (rawURL : string) : ParseError + URL :=
  if stringContainsCTLByte rawURL then inl InvalidControlCharacter
  else if String.eqb rawURL "*" then
    inr {| Scheme := ""; Opaque := ""; User := None; Host := "";
           Path := "*"; RawQuery := ""; Fragment := "" |}
  else
    '(scheme, rest) <- getScheme rawURL ;;
    let scheme := strings.ToLower scheme in
    let '(rest, rawQuery, _) := strings.Cut rest "?" in
    let hasScheme := negb (String.eqb scheme "") in
    if negb (strings.HasPrefix rest "/") && hasScheme then
      (* rootless paths are opaque *)
      inr {| Scheme := scheme; Opaque := rest; User := None; Host := "";
             Path := ""; RawQuery := rawQuery; Fragment := "" |}
    else if negb (strings.HasPrefix rest "/")
            && strings.Contains (fst (fst (strings.Cut rest "/"))) ":" then
      inl FirstPathSegmentColon
    else
      '(user, host, rest) <-
        (if (hasScheme || negb (strings.HasPrefix rest "///"))
            && strings.HasPrefix rest "//" then
           let '(authority, after, found) :=
             strings.Cut (strings.drop 2 rest) "/" in
           '(user, host) <- parseAuthority authority ;;
           inr (user, host, if found then "/" ++ after else "")
         else inr (None, "", rest)) ;;
      path <- unescape rest encodePath ;;
      inr {| Scheme := scheme; Opaque := ""; User := user; Host := host;
             Path := path; RawQuery := rawQuery; Fragment := "" |}.

(** [url.Parse]: the fragment is cut off first and set last *)
Definition Parse (rawURL : string) : ParseError + URL :=
  let '(u, frag, _) := strings.Cut rawURL "#" in
  url <- parse u ;;
  if String.eqb frag "" then inr url
  else
    fragment <- unescape frag encodeFragment ;;
    inr {| Scheme := Scheme url; Opaque := Opaque url; User := User url;
           Host := Host url; Path := Path url; RawQuery := RawQuery url;
           Fragment := fragment |}.

End url.

(** ** Values shared by the client's functions *)

(** A Go [error] value as the client inspects it: its [Error()] text and,
    when its dynamic type implements [net.Error], what [Temporary()] answers
    (the client never calls [Timeout()]). *)
Record error := {
  Error : string;
  Temporary : option bool
}.

(** [errors.New(text)] and [fmt.Errorf]: an error that is its text only *)
Definition errors_New (text : string) : error :=
  {| Error := text; Temporary := None |}.

(** [io.EOF] *)
Definition io_EOF : error := errors_New "EOF".

(** [time.Duration]: nanoseconds *)
Definition Duration := Z.
Definition Second : Duration := 1000000000%Z.
Definition Minute : Duration := (60 * Second)%Z.

(** A function value of [Config.DialContext]; functions are only told apart
    by identity. *)
Inductive DialFunc := dialFunc (id : nat).

(** [Config]: a client configuration.  [NewClient] receives a pointer to it. *)
Record Config := {
  Fingerprint : string;
  Auth : string;
  KeepAlive : Duration;
  MaxRetryCount : Z;
  MaxRetryInterval : Duration;
  Server : string;
  Proxy : string;
  Remotes : list string;
  Headers : list (string * list string);
  DialContext : option DialFunc
}.

(** Modelled from the spec: [settings.Remote] is declared in [share/settings],
    which is not among the sources.  A remote descriptor is a parsed rule
    mapping local and remote host and port, with a reverse-direction flag, a
    SOCKS flag and a stdio flag. *)
Record Remote := {
  LocalHost : string;
  LocalPort : string;
  RemoteHost : string;
  RemotePort : string;
  Socks : bool;
  Reverse : bool;
  Stdio : bool
}.

(** The collaborators of the client that live in other packages of the
    repository ([share], [share/settings], [share/ccrypto]) or in the backoff
    library: the client's functions are stated over any implementation. *)
Class Collaborators := {
  PublicKey : Type;                              (* ssh.PublicKey *)
  BuildVersion : string;                         (* chshare.BuildVersion *)
  ProtocolVersion : string;                      (* chshare.ProtocolVersion *)
  DecodeRemote : string -> string + Remote;      (* settings.DecodeRemote: error text or remote *)
  ParseAuth : string -> string * string;         (* settings.ParseAuth: user, password *)
  FingerprintKey : PublicKey -> string;          (* ccrypto.FingerprintKey *)
  ForAttempt : Duration -> Z -> Duration         (* Backoff.ForAttempt of the backoff library, by Max and attempt *)
}.

(** [settings.Config]: what is sent to the server during negotiation *)
Record settings_Config := {
  Version : string;
  computed_Remotes : list Remote
}.

(** [ssh.ClientConfig], the fields [NewClient] sets; [HostKeyCallback] is
    always the client's own [verifyServer]. *)
Record ssh_ClientConfig := {
  ssh_User : string;
  ssh_Password : string;
  ClientVersion : string;
  Timeout : Duration
}.

(** [tunnel.Config] *)
Record tunnel_Config := {
  Inbound : bool;
  Outbound : bool;
  tunnel_Socks : bool
}.

(** [Client], its fields set at construction.  [config] is the pointer
    [NewClient] was given: the record holds the pointed-to value as
    [NewClient] leaves it.  [server] is kept as the resolved URL, of which
    the code stores the [String()] rendering.  The fields [stop] and [eg]
    that [Start] assigns later are in [Lifecycle] below. *)
Record Client := {
  config : Config;
  computed : settings_Config;
  sshConfig : ssh_ClientConfig;
  proxyURL : option url.URL;
  server : url.URL;
  tunnel : tunnel_Config
}.

(** The errors [NewClient] returns *)
Inductive NewClientError :=
| ServerURLError (e : url.ParseError)      (* the error of url.Parse(c.Server) *)
| DecodeRemoteError (s : string) (e : string)
                                           (* Failed to decode remote '%s': %s *)
| OnlyOneStdio                             (* Only one stdio is allowed *)
| ProxyURLError (e : url.ParseError).      (* Invalid proxy URL (%s) *)

(** The text of the decode error, [fmt.Errorf("Failed to decode remote '%s': %s", s, err)] *)
Definition decodeErrorText (s e : string) : string :=
  "Failed to decode remote '" ++ s ++ "': " ++ e.

(** ** The backoff library ([github.com/jpillora/backoff])

    Modelled from the spec: the library is a dependency and not among the
    sources.  Its state is a counter of consecutive attempts; [Duration]
    yields the delay of the current count (exponential in the count and
    capped at [Max]: the schedule itself is the collaborator [ForAttempt])
    and counts one more attempt; [Reset] puts the counter back to zero;
    [Attempt] reads it.  The counter is a [uint64] that [Attempt] and
    [Duration] convert to [float64]. *)

Module backoff.

Local Open Scope Z_scope.

Record Backoff := {
  Max : Duration;
  attempt : Z
}.

(** [&backoff.Backoff{Max: max}] *)
Definition new (max : Duration) : Backoff := {| Max := max; attempt := 0 |}.

(** [float64(u)] of an unsigned 64-bit [u]: exact below [2^53], rounded to
    53 significant bits (ties to even) from there on. *)
Definition float64_of_uint64 (u : Z) : Z :=
  if u <? 2 ^ 53 then u
  else
    let e := Z.log2 u - 52 in
    let q := u / 2 ^ e in
    let r := u mod 2 ^ e in
    let half := 2 ^ (e - 1) in
    if r <? half then q * 2 ^ e
    else if half <? r then (q + 1) * 2 ^ e
    else if Z.even q then q * 2 ^ e else (q + 1) * 2 ^ e.

(** [b.Reset()] *)
Definition Reset (b : Backoff) : Backoff := {| Max := Max b; attempt := 0 |}.

(** [b.Attempt()], a [float64] holding an integer *)
Definition Attempt (b : Backoff) : Z := float64_of_uint64 (attempt b).

(** [b.Duration()]: the delay for the current count, and the counter
    advanced (wrapping at [2^64]). *)
Definition Duration_ `{Collaborators} (b : Backoff) : Duration * Backoff :=
  (ForAttempt (Max b) (float64_of_uint64 (attempt b)),
   {| Max := Max b; attempt := (attempt b + 1) mod 2 ^ 64 |}).

End backoff.

(** [int(f)] of a [float64] holding a non-negative integer: the value itself
    while it fits [int]; beyond, the conversion is left to the platform by the
    language (amd64 yields the least [int]). *)
Definition int_of_float64 (f : Z) : Z :=
  if (f <? 2 ^ 63)%Z then f else (- 2 ^ 63)%Z.

(** ** Lifecycle state and the outside world *)

(** How a call ends: it returns, it panics, or it is still blocked. *)
Inductive Outcome (A : Type) :=
| Returns (a : A)
| Panics
| Blocks.
Arguments Returns {A} a.
Arguments Panics {A}.
Arguments Blocks {A}.

(** [errgroup.Group]: the goroutines not yet finished and the first non-nil
    error one of them returned. *)
Record Group := {
  running : nat;
  err : option error
}.

(** The mutable part of a [Client]: the fields [stop] and [eg], both nil
    until [Start] assigns them, and whether the cancellation scope that
    [stop] cancels is done. *)
Record Lifecycle := {
  stop : bool;            (* c.stop != nil *)
  eg : option Group;      (* c.eg, None for nil *)
  cancelled : bool
}.

(** A client as [NewClient] returns it: [Start] was never called. *)
Definition fresh : Lifecycle :=
  {| stop := false; eg := None; cancelled := false |}.

(** What the outside world does during one call of [connectionOnce]: each
    field is the answer of one external operation, consulted only if the
    call gets that far. *)
Record Attempt := {
  ctxDone : bool;                   (* the context is done on entry *)
  socks5 : option error;            (* err of proxy.SOCKS5 *)
  dial : option error;              (* err of d.DialContext *)
  handshake : option error;         (* err of ssh.NewClientConn *)
  sendRequest : list Byte.byte * option error;
                                    (* configerr and err of sshConn.SendRequest *)
  bindSSH : option error            (* what tunnel.BindSSH returns when the session ends *)
}.

(** One turn of the reconnection loop as the world sees it: the attempt, and
    whether the context is cancelled during the sleep that follows. *)
Record Iteration := {
  attempt : Attempt;
  sleepCancelled : bool
}.

(** What the reconnection loop does, in order. *)
Inductive Event :=
| EvAttempt (connected retry : bool) (err : option error)
| EvSleep (d : Duration)            (* slept for d, then went on *)
| EvSleepCancelled (d : Duration)   (* cancelled while sleeping for d *)
| EvClose.                          (* c.Close() *)

(** A run of the loop over a script of iterations: [returned] is [None] when
    the loop is still going after the script's last iteration. *)
Record Run := {
  trace : list Event;
  final : Lifecycle;
  returned : option (option error)
}.

(** The dial strategies [setProxy] installs in the dialer. *)
Inductive DialStrategy :=
| Direct
| ConnectProxy (u : url.URL)
| Socks5 (host : string) (auth : option (string * string)).

(** ** The client's functions ([client/client.go]) *)

Section ClientCode.

Context {collab : Collaborators}.

(** *** [NewClient] *)

(** Lines 61-63: the default scheme, written to the caller's [Config]. *)
Definition applyDefaultScheme (c : Config) : Config :=
  if negb (strings.HasPrefix (Server c) "http") then
    {| Fingerprint := Fingerprint c; Auth := Auth c; KeepAlive := KeepAlive c;
       MaxRetryCount := MaxRetryCount c;
       MaxRetryInterval := MaxRetryInterval c;
       Server := "http://" ++ Server c;
       Proxy := Proxy c; Remotes := Remotes c; Headers := Headers c;
       DialContext := DialContext c |}
  else c.

(** Lines 64-66: the retry interval ceiling, written to the caller's [Config]. *)
Definition applyDefaultInterval (c : Config) : Config :=
  if (MaxRetryInterval c <? Second)%Z then
    {| Fingerprint := Fingerprint c; Auth := Auth c; KeepAlive := KeepAlive c;
       MaxRetryCount := MaxRetryCount c;
       MaxRetryInterval := (5 * Minute)%Z;
       Server := Server c;
       Proxy := Proxy c; Remotes := Remotes c; Headers := Headers c;
       DialContext := DialContext c |}
  else c.

Definition withHost (u : url.URL) (host : string) : url.URL :=
  {| url.Scheme := url.Scheme u; url.Opaque := url.Opaque u;
     url.User := url.User u; url.Host := host; url.Path := url.Path u;
     url.RawQuery := url.RawQuery u; url.Fragment := url.Fragment u |}.

Definition withScheme (u : url.URL) (scheme : string) : url.URL :=
  {| url.Scheme := scheme; url.Opaque := url.Opaque u;
     url.User := url.User u; url.Host := url.Host u; url.Path := url.Path u;
     url.RawQuery := url.RawQuery u; url.Fragment := url.Fragment u |}.

(** Lines 72-78: the default port. *)
Definition applyDefaultPort (u : url.URL) : url.URL :=
  if negb (matchPort (url.Host u)) then
    if String.eqb (url.Scheme u) "https" || String.eqb (url.Scheme u) "wss"
    then withHost u (url.Host u ++ ":443")
    else withHost u (url.Host u ++ ":80")
  else u.

(** Line 80: the swap to the web-socket scheme. *)
Definition swapScheme (u : url.URL) : url.URL :=
  withScheme u (strings.Replace1 (url.Scheme u) "http" "ws").

(** Lines 67-80: the endpoint resolved from the (defaulted) server string. *)
Definition resolveEndpoint (server : string) : url.ParseError + url.URL :=
  match url.Parse server with
  | inl e => inl e
  | inr u => inr (swapScheme (applyDefaultPort u))
  end.

(** Lines 92-110: the loop over [c.Remotes], with its three flags and the
    remotes appended so far. *)
Fixpoint decodeRemotes (specs : list string)
    (hasReverse hasSocks hasStdio : bool) (remotes : list Remote)
  : NewClientError + (bool * bool * bool * list Remote) :=
  match specs with
  | [] => inr (hasReverse, hasSocks, hasStdio, remotes)
  | s :: specs' =>
      match DecodeRemote s with
      | inl e => inl (DecodeRemoteError s e)
      | inr r =>
          let hasSocks := if Socks r then true else hasSocks in
          let hasReverse := if Reverse r then true else hasReverse in
          if Stdio r then
            if hasStdio then inl OnlyOneStdio
            else decodeRemotes specs' hasReverse hasSocks true (remotes ++ [r])
          else decodeRemotes specs' hasReverse hasSocks hasStdio (remotes ++ [r])
      end
  end.

(** Lines 114-119: the outbound proxy. *)
Definition parseProxy (p : string) : NewClientError + option url.URL :=
  if String.eqb p "" then inr None
  else match url.Parse p with
       | inl e => inl (ProxyURLError e)
       | inr u => inr (Some u)
       end.

(** [NewClient(c)]: the [Config] behind the pointer [c] as the call leaves
    it, and the client or the error returned. *)
Definition NewClient (c : Config) : Config * (NewClientError + Client) :=
  let c := applyDefaultInterval (applyDefaultScheme c) in
  (c,
   match resolveEndpoint (Server c) with
   | inl e => inl (ServerURLError e)
   | inr u =>
       match decodeRemotes (Remotes c) false false false [] with
       | inl e => inl e
       | inr (hasReverse, hasSocks, hasStdio, remotes) =>
           match parseProxy (Proxy c) with
           | inl e => inl e
           | inr proxy =>
               let (user, pass) := ParseAuth (Auth c) in
               inr {| config := c;
                      computed := {| Version := BuildVersion;
                                     computed_Remotes := remotes |};
                      sshConfig :=
                        {| ssh_User := user; ssh_Password := pass;
                           ClientVersion := "SSH-" ++ ProtocolVersion ++ "-client";
                           Timeout := (30 * Second)%Z |};
                      proxyURL := proxy;
                      server := u;
                      tunnel := {| Inbound := true; Outbound := hasReverse;
                                   tunnel_Socks := hasReverse && hasSocks |} |}
           end
       end
   end).

(** *** [verifyServer]

    [hostname] and [remote] are not read. *)
Definition verifyServer (c : Client) (key : PublicKey) : option error :=
  let expect := Fingerprint (config c) in
  let got := FingerprintKey key in
  if negb (String.eqb expect "") && negb (strings.HasPrefix got expect) then
    Some (errors_New ("Invalid fingerprint (" ++ got ++ ")"))
  else None.

(** *** [setProxy]

    The dial strategy installed in the dialer, or the error returned. *)
Definition setProxy (u : url.URL) (w : Attempt) : error + DialStrategy :=
  if negb (strings.HasPrefix (url.Scheme u) "socks") then
    inr (ConnectProxy u)
  else if negb (String.eqb (url.Scheme u) "socks")
          && negb (String.eqb (url.Scheme u) "socks5h") then
    inl (errors_New ("unsupported socks proxy type: " ++ url.Scheme u
                     ++ ":// (only socks5h:// or socks:// is supported)"))
  else
    let auth :=
      match url.User u with
      | Some info =>
          Some (url.username info,
                match url.password info with Some p => p | None => "" end)
      | None => None
      end in
    match socks5 w with
    | Some err => inl err
    | None => inr (Socks5 (url.Host u) auth)
    end.

(** [err.(net.Error)] succeeds and [Temporary()] is false *)
Definition nonTemporary (err : error) : bool :=
  match Temporary err with
  | Some t => negb t
  | None => false
  end.

(** *** [connectionOnce]

    Returns [(connected, retry, err)].  The log lines and the deferred
    [cancel()] and [sshConn.Close()] are left out: they do not change what is
    returned. *)
Definition connectionOnce (c : Client) (l : Lifecycle) (w : Attempt)
  : bool * bool * option error :=
  (* already closed? *)
  if ctxDone w || cancelled l then (false, false, Some io_EOF)
  else
    match
      match proxyURL c with
      | Some p => setProxy p w
      | None => inr Direct
      end
    with
    | inl err => (false, false, Some err)
    | inr _ =>
        match dial w with
        | Some err => (false, true, Some err)
        | None =>
            (* SSH handshake *)
            match handshake w with
            | Some err =>
                let retry :=
                  if strings.Contains (Error err) "unable to authenticate"
                  then false
                  else if nonTemporary err then false
                  else true in
                (false, retry, Some err)
            | None =>
                (* send configuration *)
                let '(configerr, err) := sendRequest w in
                match err with
                | Some err => (false, false, Some err)
                | None =>
                    if Nat.ltb 0 (List.length configerr) then
                      (false, false,
                       Some (errors_New (string_of_list_byte configerr)))
                    else
                      (* connected: hand over to the tunnel, and block *)
                      let err := bindSSH w in
                      let retry :=
                        match err with
                        | Some e => if nonTemporary e then false else true
                        | None => true
                        end in
                      (true, retry, err)
                end
            end
        end
    end.

(** *** [Close], [Start], [Wait] *)

(** [c.stop()]: the cancel function of a context; it marks the scope done
    and returns, whether or not the scope was done already. *)
Definition cancel (l : Lifecycle) : Lifecycle :=
  {| stop := stop l; eg := eg l; cancelled := true |}.

(** [Close] *)
Definition Close (l : Lifecycle) : Lifecycle * Outcome (option error) :=
  let l := if stop l then cancel l else l in
  (l, Returns None).

(** [Start(ctx)]: [parentDone] tells whether the caller's context is done
    already.  The two goroutines are launched, none has finished. *)
Definition Start (parentDone : bool) (l : Lifecycle)
  : Lifecycle * Outcome (option error) :=
  ({| stop := true;
      eg := Some {| running := 2; err := None |};
      cancelled := parentDone |},
   Returns None).

(** [Wait] of [errgroup.Group], on a group in a given state: it blocks while a
    goroutine is running and then returns the first error. *)
Definition Group_Wait (g : Group) : Outcome (option error) :=
  match running g with
  | O => Returns (err g)
  | S _ => Blocks
  end.

(** A goroutine of the group returns [r]: the first non-nil error is kept. *)
Definition Group_done (r : option error) (g : Group) : Group :=
  {| running := Nat.pred (running g);
     err := match err g with Some e => Some e | None => r end |}.

(** Reading through a pointer: a nil pointer panics. *)
Definition deref {A : Type} (p : option A) : Outcome A :=
  match p with
  | Some a => Returns a
  | None => Panics
  end.

Definition andThen {A B : Type} (o : Outcome A) (k : A -> Outcome B)
  : Outcome B :=
  match o with
  | Returns a => k a
  | Panics => Panics
  | Blocks => Blocks
  end.

(** [Wait]: [c.eg.Wait()] with no test of [c.eg]; the method of the group
    starts by reading a field of its receiver. *)
Definition Wait (l : Lifecycle) : Outcome (option error) :=
  andThen (deref (eg l)) Group_Wait.

(** *** [connectionLoop] *)

(** One turn of the loop body up to the give-up test: the backoff after the
    optional reset, and whether the loop breaks.  The log lines of the loop
    are left out. *)
Definition afterAttempt (c : Client) (b : backoff.Backoff)
    (connected retry : bool) : backoff.Backoff * bool :=
  let b := if connected then backoff.Reset b else b in
  let attempt := int_of_float64 (backoff.Attempt b) in
  let maxAttempt := MaxRetryCount (config c) in
  (b, negb retry || ((0 <=? maxAttempt)%Z && (maxAttempt <=? attempt)%Z)).

Fixpoint loop (c : Client) (l : Lifecycle) (b : backoff.Backoff)
    (script : list Iteration) : Run :=
  match script with
  | [] => {| trace := []; final := l; returned := None |}
  | it :: script' =>
      let '(connected, retry, err) := connectionOnce c l (attempt it) in
      let ev := EvAttempt connected retry err in
      let '(b, giveUp) := afterAttempt c b connected retry in
      if giveUp then
        (* break; c.Close(); return nil *)
        {| trace := [ev; EvClose]; final := fst (Close l);
           returned := Some None |}
      else
        let '(d, b) := backoff.Duration_ b in
        if sleepCancelled it then
          (* case <-ctx.Done(): return nil *)
          {| trace := [ev; EvSleepCancelled d]; final := l;
             returned := Some None |}
        else
          let r := loop c l b script' in
          {| trace := ev :: EvSleep d :: trace r; final := final r;
             returned := returned r |}
  end.

(** [connectionLoop(ctx)] *)
Definition connectionLoop (c : Client) (l : Lifecycle)
    (script : list Iteration) : Run :=
  loop c l (backoff.new (MaxRetryInterval (config c))) script.

End ClientCode.

(** [Close] called [n] times in a row: the state after the last call and
    what each call did. *)
Fixpoint CloseTimes (n : nat) (l : Lifecycle)
  : Lifecycle * list (Outcome (option error)) :=
  match n with
  | O => (l, [])
  | S n' =>
      let (l1, o) := Close l in
      let (l2, os) := CloseTimes n' l1 in
      (l2, o :: os)
  end.

(** The delay a new loop sleeps after its first failed attempt. *)
Definition firstDelay `{Collaborators} (c : Client) : Duration :=
  fst (backoff.Duration_ (backoff.new (MaxRetryInterval (config c)))).

(** The specs of a list that decode to a stdio-flagged remote. *)
Definition stdioFlagged `{Collaborators} (s : string) : bool :=
  match DecodeRemote s with
  | inr r => Stdio r
  | inl _ => false
  end.

Definition decodes `{Collaborators} (s : string) : bool :=
  match DecodeRemote s with
  | inr _ => true
  | inl _ => false
  end.

Definition stdioCount `{Collaborators} (specs : list string) : nat :=
  List.length (filter stdioFlagged specs).

(** ** A sample of the collaborators, for concrete runs

    Keys are given by their fingerprint text; a remote spec is rejected when
    it is empty or has five or more colon-separated parts, is reversed when
    it begins with [R:], stdio-flagged when it begins with [stdio:] and
    SOCKS-flagged when it ends with [socks]; the credential string is split
    at its first colon; the delay doubles from 100ms and is capped at [Max]. *)

Module Sample.

Definition decodeRemote (s : string) : string + Remote :=
  let reverse := strings.HasPrefix s "R:" in
  let s := if reverse then strings.drop 2 s else s in
  if String.eqb s "" || Nat.leb 4 (strings.CountByte s ":") then
    inl "Invalid remote"
  else
    inr {| LocalHost := "0.0.0.0"; LocalPort := s;
           RemoteHost := "0.0.0.0"; RemotePort := s;
           Socks := strings.HasSuffix s "socks";
           Reverse := reverse;
           Stdio := strings.HasPrefix s "stdio:" |}.

Definition parseAuth (auth : string) : string * string :=
  let '(user, pass, _) := strings.Cut auth ":" in (user, pass).

Definition forAttempt (max : Duration) (attempt : Z) : Duration :=
  Z.min (100000000 * 2 ^ attempt) max.

Definition collaborators : Collaborators := {|
  PublicKey := string;
  BuildVersion := "0.0.0-src";
  ProtocolVersion := "chisel-v3";
  DecodeRemote := decodeRemote;
  ParseAuth := parseAuth;
  FingerprintKey := fun key => key;
  ForAttempt := forAttempt
|}.

Definition cfg (server : string) (remotes : list string)
    (maxRetryCount : Z) : Config :=
  {| Fingerprint := "ab:cd"; Auth := "user:secret"; KeepAlive := 0%Z;
     MaxRetryCount := maxRetryCount; MaxRetryInterval := 0%Z;
     Server := server; Proxy := ""; Remotes := remotes; Headers := [];
     DialContext := None |}.

(** The client [NewClient] builds for [example.com] and one remote, with
    the retry count given. *)
Definition clientWith (maxRetryCount : Z) : Client :=
  match snd (@NewClient collaborators
               (cfg "example.com" ["3000"] maxRetryCount)) with
  | inr c => c
  | inl _ =>
      {| config := cfg "" [] maxRetryCount;
         computed := {| Version := ""; computed_Remotes := [] |};
         sshConfig := {| ssh_User := ""; ssh_Password := "";
                         ClientVersion := ""; Timeout := 0%Z |};
         proxyURL := None;
         server := {| url.Scheme := ""; url.Opaque := ""; url.User := None;
                      url.Host := ""; url.Path := ""; url.RawQuery := "";
                      url.Fragment := "" |};
         tunnel := {| Inbound := false; Outbound := false;
                      tunnel_Socks := false |} |}
  end.

(** No retries, and retries without end. *)
Definition client : Client := Eval vm_compute in clientWith 0.
Definition retrying : Client := Eval vm_compute in clientWith (-1).

(** The lifecycle state right after [Start] with a live context. *)
Definition started : Lifecycle := fst (Start false fresh).

Definition refused : error :=
  {| Error := "dial tcp: connection refused"; Temporary := Some true |}.

(** An attempt whose dial fails. *)
Definition dialFails : Attempt :=
  {| ctxDone := false; socks5 := None; dial := Some refused;
     handshake := None; sendRequest := ([], None); bindSSH := None |}.

(** An attempt that gets through the dial and ends as the fields say. *)
Definition dialled (handshake : option error)
    (sendRequest : list Byte.byte * option error) (bindSSH : option error)
  : Attempt :=
  {| ctxDone := false; socks5 := None; dial := None;
     handshake := handshake; sendRequest := sendRequest; bindSSH := bindSSH |}.

End Sample.

(** The sample client behind an outbound proxy given by its URL. *)
Definition clientBehind (proxy : string) : Client :=
  match snd (@NewClient Sample.collaborators
               {| Fingerprint := ""; Auth := "user:secret"; KeepAlive := 0%Z;
                  MaxRetryCount := (-1)%Z; MaxRetryInterval := 0%Z;
                  Server := "example.com"; Proxy := proxy;
                  Remotes := ["3000"]; Headers := [];
                  DialContext := None |}) with
  | inr c => c
  | inl _ => Sample.client
  end.

(** An attempt that gets a transport connection: the context is live, the
    proxy (if one is configured) is accepted and the dial succeeds. *)
Definition dials (c : Client) (l : Lifecycle) (w : Attempt) : Prop :=
  ctxDone w = false /\ cancelled l = false /\
  (forall p, proxyURL c = Some p -> exists strategy, setProxy p w = inr strategy) /\
  dial w = None.

(** An authentication rejection, as [connectionOnce] recognises it. *)
Definition authRejected (err : error) : bool :=
  strings.Contains (Error err) "unable to authenticate".

(** The attempts of a trace, and the delays it slept or started to sleep. *)
Fixpoint attempts (tr : list Event) : nat :=
  match tr with
  | [] => 0
  | EvAttempt _ _ _ :: tr' => S (attempts tr')
  | _ :: tr' => attempts tr'
  end.

Fixpoint sleeps (tr : list Event) : list Duration :=
  match tr with
  | [] => []
  | EvSleep d :: tr' => d :: sleeps tr'
  | EvSleepCancelled d :: tr' => d :: sleeps tr'
  | _ :: tr' => sleeps tr'
  end.

(** [Run] of [Client]: [Start] on a new background context, then [Wait].
    [finished] lists what the goroutines of the group have returned so far,
    in the order they returned; the deferred [cancel()] runs after [Wait]
    and does not change what is returned. *)
Definition Client_Run (l : Lifecycle) (finished : list (option error))
  : Outcome (option error) :=
  let (l1, started) := Start false l in
  andThen started (fun err =>
    match err with
    | Some e => Returns (Some e)
    | None =>
        andThen (deref (eg l1)) (fun g =>
          Group_Wait (fold_left (fun g r => Group_done r g) finished g))
    end).

(** The first non-nil error of a list of results. *)
Fixpoint firstError (rs : list (option error)) : option error :=
  match rs with
  | [] => None
  | Some e :: _ => Some e
  | None :: rs' => firstError rs'
  end.

(** ** Properties *)

(** *** Facts about the string functions *)

Section StringFacts.

Lemma HasPrefix_app (p r : string) : strings.HasPrefix (p ++ r) p = true.
Proof.
  induction p as [|c p IH]; simpl.
  - destruct r; reflexivity.
  - now rewrite Ascii.eqb_refl, IH.
Qed.

(** [HasPrefix s p] holds exactly when [s] starts with [p]. *)
Lemma HasPrefix_iff (s p : string) :
  strings.HasPrefix s p = true <-> exists r, s = p ++ r.
Proof.
  split.
  - revert s; induction p as [|c p IH]; intros s H.
    + now exists s.
    + destruct s as [|d s]; simpl in H; [discriminate|].
      apply andb_true_iff in H as [Hc Hp].
      apply Ascii.eqb_eq in Hc; subst d.
      destruct (IH s Hp) as [r ->].
      now exists r.
  - intros [r ->]. apply HasPrefix_app.
Qed.

Lemma Contains_skip (a t sub : string) :
  strings.Contains t sub = true -> strings.Contains (a ++ t) sub = true.
Proof.
  intros H; induction a as [|c a IH]; simpl; [exact H|].
  rewrite IH. apply orb_true_r.
Qed.

Lemma Contains_prefix (s sub : string) :
  strings.HasPrefix s sub = true -> strings.Contains s sub = true.
Proof. intros H; destruct s; simpl in *; now rewrite H. Qed.

(** A text that holds [sub] somewhere contains it. *)
Lemma Contains_middle (a sub b : string) :
  strings.Contains (a ++ sub ++ b) sub = true.
Proof. apply Contains_skip, Contains_prefix, HasPrefix_app. Qed.

(** [Contains s sub] holds exactly when [sub] occurs in [s]. *)
Lemma Contains_iff (s sub : string) :
  strings.Contains s sub = true <-> exists a b, s = a ++ sub ++ b.
Proof.
  split.
  - induction s as [|c s IH]; cbn [strings.Contains]; intros H.
    + apply orb_true_iff in H as [H|H]; [|discriminate].
      apply HasPrefix_iff in H as [r ->]. now exists "", r.
    + apply orb_true_iff in H as [H|H].
      * apply HasPrefix_iff in H as [r ->]. now exists "", r.
      * destruct (IH H) as (a & b & ->). now exists (String c a), b.
  - intros (a & b & ->). apply Contains_middle.
Qed.

(** The part of a string before a separator byte keeps a first byte that is
    not the separator. *)
Lemma Cut_cons (c d : ascii) (s : string) :
  Ascii.eqb c d = false ->
  fst (fst (strings.Cut (String c s) (String d ""))) =
  String c (fst (fst (strings.Cut s (String d "")))).
Proof.
  intros H. unfold strings.Cut. simpl strings.Index. rewrite H. simpl.
  destruct (strings.Index s (String d "")); reflexivity.
Qed.

Lemma matchPort_app (h port : string) :
  colon_digits port = true -> matchPort (h ++ port) = true.
Proof.
  intros H; induction h as [|c h IH]; simpl.
  - destruct port; simpl in *; now rewrite H.
  - rewrite IH. apply orb_true_r.
Qed.

End StringFacts.

(** *** A single connection attempt *)

Section ConnectionOnce.

Ltac through_dial H :=
  let Hctx := fresh "Hctx" in
  let Hcan := fresh "Hcan" in
  let Hproxy := fresh "Hproxy" in
  let Hdial := fresh "Hdial" in
  destruct H as (Hctx & Hcan & Hproxy & Hdial);
  unfold connectionOnce; rewrite Hctx, Hcan, Hdial; cbn [orb];
  match goal with
  | |- context [proxyURL ?c] =>
      let p := fresh "p" in
      let Hp := fresh "Hp" in
      destruct (proxyURL c) as [p|] eqn:Hp;
      [ let st := fresh "st" in
        let Hst := fresh "Hst" in
        destruct (Hproxy p eq_refl) as [st Hst]; rewrite Hst
      | ]
  end.

Lemma nonTemporary_true (err : error) :
  nonTemporary err = true <-> Temporary err = Some false.
Proof.
  unfold nonTemporary. destruct (Temporary err) as [[|]|]; simpl; split;
    intros H; congruence.
Qed.

(** A failed dial is a never-connected, retriable attempt. *)
Lemma connectionOnce_dial_fails (c : Client) (l : Lifecycle) (w : Attempt)
    (e : error) :
  ctxDone w = false -> cancelled l = false ->
  (forall p, proxyURL c = Some p -> exists strategy, setProxy p w = inr strategy) ->
  dial w = Some e ->
  connectionOnce c l w = (false, true, Some e).
Proof.
  intros Hctx Hcan Hproxy Hdial.
  unfold connectionOnce. rewrite Hctx, Hcan, Hdial. cbn [orb].
  destruct (proxyURL c) as [p|]; [|reflexivity].
  destruct (Hproxy p eq_refl) as [st ->]. reflexivity.
Qed.

(** C1. When the SSH handshake of an attempt fails with [err]: an
    authentication rejection gives not connected, not retriable; a network
    error marked non-temporary gives not connected, not retriable; every
    other error gives not connected, retriable.  The outcome carries [err]
    in each case. *)
Theorem handshake_failure_classified (c : Client) (l : Lifecycle)
    (w : Attempt) (err : error) :
  dials c l w ->
  handshake w = Some err ->
  (authRejected err = true ->
   connectionOnce c l w = (false, false, Some err)) /\
  (Temporary err = Some false ->
   connectionOnce c l w = (false, false, Some err)) /\
  (authRejected err = false -> Temporary err <> Some false ->
   connectionOnce c l w = (false, true, Some err)).
Proof.
  intros Hd Hh.
  assert (E : connectionOnce c l w =
              (false,
               if authRejected err then false
               else if nonTemporary err then false else true,
               Some err)).
  { through_dial Hd; rewrite Hh; reflexivity. }
  rewrite E. repeat split.
  - intros ->. reflexivity.
  - intros Ht. apply nonTemporary_true in Ht. rewrite Ht.
    destruct (authRejected err); reflexivity.
  - intros -> Ht.
    destruct (nonTemporary err) eqn:En; [|reflexivity].
    apply nonTemporary_true in En. contradiction.
Qed.

(** C7. After a successful handshake: a failure of the [config] request
    itself gives not connected, not retriable; a non-empty reply payload
    gives not connected, not retriable, with an error whose text is the
    payload read as a string. *)
Theorem negotiation_failure_fatal (c : Client) (l : Lifecycle) (w : Attempt) :
  dials c l w ->
  handshake w = None ->
  (forall configerr err,
     sendRequest w = (configerr, Some err) ->
     connectionOnce c l w = (false, false, Some err)) /\
  (forall configerr,
     sendRequest w = (configerr, None) ->
     configerr <> [] ->
     exists err,
       connectionOnce c l w = (false, false, Some err) /\
       Error err = string_of_list_byte configerr).
Proof.
  intros Hd Hh. split.
  - intros configerr err Hs.
    through_dial Hd; rewrite Hh, Hs; reflexivity.
  - intros configerr Hs Hne.
    exists (errors_New (string_of_list_byte configerr)). split; [|reflexivity].
    destruct configerr as [|b bs]; [contradiction|].
    through_dial Hd; rewrite Hh, Hs; reflexivity.
Qed.

(** An accepted configuration (empty reply) reaches the connected state. *)
Lemma negotiation_accepted (c : Client) (l : Lifecycle) (w : Attempt) :
  dials c l w ->
  handshake w = None ->
  sendRequest w = ([], None) ->
  fst (fst (connectionOnce c l w)) = true /\
  snd (connectionOnce c l w) = bindSSH w.
Proof.
  intros Hd Hh Hs.
  through_dial Hd; rewrite Hh, Hs; split; reflexivity.
Qed.

End ConnectionOnce.

(** *** Host-key verification *)

Section VerifyServer.

Context {collab : Collaborators}.

(** C6. With a non-empty expected fingerprint that the computed fingerprint
    of the key does not start with, verification fails with an error that
    holds the computed fingerprint; with an empty expected fingerprint, or
    one the computed fingerprint starts with, verification succeeds. *)
Theorem verifyServer_prefix (c : Client) (key : PublicKey) :
  let expect := Fingerprint (config c) in
  let got := FingerprintKey key in
  (expect <> "" -> (~ exists rest, got = expect ++ rest) ->
   exists err,
     verifyServer c key = Some err /\
     Error err = "Invalid fingerprint (" ++ got ++ ")" /\
     strings.Contains (Error err) got = true) /\
  (expect = "" \/ (exists rest, got = expect ++ rest) ->
   verifyServer c key = None).
Proof.
  intros expect got. unfold verifyServer. fold expect got. split.
  - intros Hne Hnp.
    destruct (String.eqb expect "") eqn:Ee.
    { apply String.eqb_eq in Ee. contradiction. }
    destruct (strings.HasPrefix got expect) eqn:Ep.
    { apply HasPrefix_iff in Ep. contradiction. }
    cbn [negb andb]. eexists. split; [reflexivity|]. split; [reflexivity|].
    cbn [Error errors_New].
    apply (Contains_middle "Invalid fingerprint (" got ")").
  - intros [He|Hp].
    + rewrite He. reflexivity.
    + apply HasPrefix_iff in Hp. rewrite Hp.
      cbn [negb]. now rewrite andb_false_r.
Qed.

End VerifyServer.

(** *** Lifecycle: [Close] and [Wait] *)

Section LifecycleFacts.

Lemma Close_returns (l : Lifecycle) : snd (Close l) = Returns None.
Proof. reflexivity. Qed.

Lemma Close_idempotent (l : Lifecycle) :
  fst (Close (fst (Close l))) = fst (Close l).
Proof. unfold Close. destruct l as [[|] g k]; reflexivity. Qed.

Lemma Close_keeps_fields (l : Lifecycle) :
  stop (fst (Close l)) = stop l /\ eg (fst (Close l)) = eg l.
Proof. unfold Close. destruct l as [[|] g k]; split; reflexivity. Qed.

Lemma CloseTimes_returns (n : nat) (l : Lifecycle) :
  snd (CloseTimes n l) = repeat (Returns None) n.
Proof.
  revert l; induction n as [|n IH]; intros l; [reflexivity|].
  cbn [CloseTimes]. destruct (Close l) as [l1 o] eqn:E1.
  specialize (IH l1). destruct (CloseTimes n l1) as [l2 os].
  cbn [snd repeat] in *. rewrite IH. f_equal.
  change o with (snd (l1, o)). rewrite <- E1. apply Close_returns.
Qed.

Lemma CloseTimes_state (n : nat) (l : Lifecycle) :
  fst (CloseTimes (S n) l) = fst (Close l).
Proof.
  revert l; induction n as [|n IH]; intros l.
  - cbn [CloseTimes]. destruct (Close l); reflexivity.
  - specialize (IH (fst (Close l))). rewrite Close_idempotent in IH.
    rewrite <- IH. cbn [CloseTimes].
    destruct (Close l) as [l1 o]. cbn [fst].
    destruct (Close l1) as [l2 o'].
    destruct (CloseTimes n l2) as [l3 os]. reflexivity.
Qed.

(** C8. [Close] before [Start] changes nothing and returns no error; any
    number of calls of [Close], from any state, each return no error (none
    blocks, none panics), and the calls after the first change nothing. *)
Theorem Close_idempotent_safe :
  Close fresh = (fresh, Returns None) /\
  (forall l, stop l = false -> Close l = (l, Returns None)) /\
  (forall n l,
     snd (CloseTimes n l) = repeat (Returns None) n /\
     fst (CloseTimes (S n) l) = fst (Close l)).
Proof.
  split; [reflexivity|]. split.
  - intros l H. unfold Close. rewrite H. reflexivity.
  - intros n l. split; [apply CloseTimes_returns | apply CloseTimes_state].
Qed.

(** C10. [Wait] on a client whose [eg] field is still nil panics, while
    [Close] in the same state returns no error; the field is nil in a new
    client, is assigned by [Start] and is left as it is by [Close]. *)
Theorem Wait_before_Start_panics :
  (forall l, eg l = None ->
     Wait l = Panics /\ Close l = (fst (Close l), Returns None)) /\
  eg fresh = None /\
  (forall parentDone l,
     eg (fst (Start parentDone l)) <> None /\
     Wait (fst (Start parentDone l)) <> Panics) /\
  (forall l, eg (fst (Close l)) = eg l).
Proof.
  repeat split.
  - unfold Wait. now rewrite H.
  - discriminate.
  - discriminate.
  - apply Close_keeps_fields.
Qed.

End LifecycleFacts.

(** *** The resolved endpoint *)

Section Endpoint.

Context {collab : Collaborators}.

Lemma getScheme_http (x : string) :
  url.getScheme ("http://" ++ x) = inr ("http", "//" ++ x).
Proof. reflexivity. Qed.

(** Whatever follows [http://], a URL that parses has the scheme [http]. *)
Lemma parse_http_scheme (x : string) (u : url.URL) :
  url.parse ("http://" ++ x) = inr u -> url.Scheme u = "http".
Proof.
  unfold url.parse.
  destruct (url.stringContainsCTLByte _); [discriminate|].
  change (String.eqb ("http://" ++ x) "*") with false. cbv iota.
  rewrite getScheme_http. cbn [url.bind].
  change (strings.ToLower "http") with "http".
  pose proof (Cut_cons "/" "?" (String "/" x) eq_refl) as E.
  rewrite (Cut_cons "/" "?" x eq_refl) in E.
  change ("//" ++ x) with (String "/" (String "/" x)).
  destruct (strings.Cut (String "/" (String "/" x)) "?") as [[rest q] f].
  cbn [fst] in E. subst rest.
  set (r := fst (fst (strings.Cut x "?"))).
  change (strings.HasPrefix (String "/" (String "/" r)) "/") with true.
  change (strings.HasPrefix (String "/" (String "/" r)) "//") with true.
  change (String.eqb "http" "") with false.
  cbn [negb andb orb].
  destruct (strings.Cut _ "/") as [[authority after] found].
  destruct (url.parseAuthority authority) as [e|[user host]];
    cbn [url.bind]; [discriminate|].
  destruct (url.unescape _ url.encodePath); cbn [url.bind]; [discriminate|].
  intros H; injection H as <-. reflexivity.
Qed.

Lemma Parse_http_scheme (x : string) (u : url.URL) :
  url.Parse ("http://" ++ x) = inr u -> url.Scheme u = "http".
Proof.
  unfold url.Parse.
  assert (E : fst (fst (strings.Cut ("http://" ++ x) "#")) =
              "http://" ++ fst (fst (strings.Cut x "#"))).
  { cbn [append].
    now rewrite !Cut_cons by reflexivity. }
  destruct (strings.Cut ("http://" ++ x) "#") as [[raw frag] f].
  cbn [fst] in E. subst raw.
  destruct (url.parse _) as [e|v] eqn:Ev; cbn [url.bind]; [discriminate|].
  apply parse_http_scheme in Ev.
  destruct (String.eqb frag ""); [now intros [= <-]|].
  destruct (url.unescape frag _); cbn [url.bind]; [discriminate|].
  intros [= <-]. exact Ev.
Qed.

(** After the default port is applied the host ends in a colon and digits. *)
Lemma applyDefaultPort_has_port (u : url.URL) :
  matchPort (url.Host (applyDefaultPort u)) = true.
Proof.
  unfold applyDefaultPort.
  destruct (matchPort (url.Host u)) eqn:E; cbn [negb]; [exact E|].
  destruct (_ || _); cbn [withHost url.Host]; now apply matchPort_app.
Qed.


(** A server string that does not begin with the bytes [http] is given the
    scheme [http://]: if it resolves, the endpoint has the scheme [ws] and a
    host that ends in a port. *)
Lemma endpoint_of_unprefixed_server (c : Config) (u : url.URL) :
  strings.HasPrefix (Server c) "http" = false ->
  resolveEndpoint (Server (fst (NewClient c))) = inr u ->
  url.Scheme u = "ws" /\ matchPort (url.Host u) = true.
Proof.
  intros Hp. unfold NewClient. cbn [fst].
  assert (Es : Server (applyDefaultInterval (applyDefaultScheme c)) =
               "http://" ++ Server c).
  { unfold applyDefaultInterval, applyDefaultScheme. rewrite Hp. cbn [negb].
    destruct (_ <? _)%Z; reflexivity. }
  rewrite Es. unfold resolveEndpoint.
  destruct (url.Parse _) as [e|v] eqn:Ev; [discriminate|].
  intros [= <-]. apply Parse_http_scheme in Ev. split.
  - unfold swapScheme, applyDefaultPort. cbn [withScheme url.Scheme].
    destruct (negb _); [destruct (_ || _)|]; cbn [withHost url.Scheme];
      rewrite Ev; reflexivity.
  - cbn [swapScheme withScheme url.Host]. apply applyDefaultPort_has_port.
Qed.

End Endpoint.

(** *** [NewClient]: the caller's configuration and the remote specs *)

Section NewClientFacts.

Context {collab : Collaborators}.

Lemma Remotes_defaults (c : Config) :
  Remotes (applyDefaultInterval (applyDefaultScheme c)) = Remotes c.
Proof.
  unfold applyDefaultInterval, applyDefaultScheme.
  destruct (negb _); destruct (_ <? _)%Z; reflexivity.
Qed.

(** C9, amended.  [NewClient] writes to the caller's [Config]: [Server]
    gets the prefix [http://] unless it begins with [http], and
    [MaxRetryInterval] becomes five minutes when it is below one second.
    Every other field is left as it was, and so is the whole [Config] when
    [Server] begins with [http] and [MaxRetryInterval] is at least one
    second. *)
Theorem NewClient_config_effect (c : Config) :
  let c' := fst (NewClient c) in
  Fingerprint c' = Fingerprint c /\ Auth c' = Auth c /\
  KeepAlive c' = KeepAlive c /\ MaxRetryCount c' = MaxRetryCount c /\
  Proxy c' = Proxy c /\ Remotes c' = Remotes c /\ Headers c' = Headers c /\
  DialContext c' = DialContext c /\
  Server c' = (if strings.HasPrefix (Server c) "http" then Server c
               else "http://" ++ Server c) /\
  MaxRetryInterval c' = (if (MaxRetryInterval c <? Second)%Z
                         then (5 * Minute)%Z else MaxRetryInterval c) /\
  (strings.HasPrefix (Server c) "http" = true ->
   (Second <= MaxRetryInterval c)%Z -> c' = c).
Proof.
  unfold NewClient, applyDefaultInterval, applyDefaultScheme. cbn [fst].
  destruct (strings.HasPrefix (Server c) "http") eqn:Ep; cbn [negb];
    destruct (_ <? _)%Z eqn:Ei; cbn; repeat split; try congruence.
  all: intros; apply Z.ltb_lt in Ei; lia.
Qed.

(** The loop over the remote specs fails as soon as one spec of the list
    does not decode. *)
Lemma decodeRemotes_undecodable (specs : list string) :
  forall hasReverse hasSocks hasStdio remotes,
    (exists s, In s specs /\ decodes s = false) ->
    exists e,
      decodeRemotes specs hasReverse hasSocks hasStdio remotes = inl e.
Proof.
  induction specs as [|s specs IH]; intros hr hs hst acc (x & Hin & Hx).
  - destruct Hin.
  - cbn [decodeRemotes]. unfold decodes in Hx.
    destruct (DecodeRemote s) as [e|r] eqn:Es;
      [now exists (DecodeRemoteError s e)|].
    assert (Hrest : exists y, In y specs /\ decodes y = false).
    { destruct Hin as [->|Hin]; [rewrite Es in Hx; discriminate|].
      exists x. now split. }
    destruct (Stdio r); [destruct hst|].
    + now exists OnlyOneStdio.
    + now apply IH.
    + now apply IH.
Qed.

(** It fails as well once a second stdio-flagged spec is met. *)
Lemma decodeRemotes_two_stdio (specs : list string) :
  forall hasReverse hasSocks (hasStdio : bool) remotes,
    2 <= stdioCount specs + (if hasStdio then 1 else 0) ->
    exists e,
      decodeRemotes specs hasReverse hasSocks hasStdio remotes = inl e.
Proof.
  induction specs as [|s specs IH]; intros hr hs hst acc H.
  - unfold stdioCount in H. cbn in H. destruct hst; lia.
  - cbn [decodeRemotes]. unfold stdioCount in H. cbn [filter] in H.
    unfold stdioFlagged at 1 in H.
    destruct (DecodeRemote s) as [e|r];
      [now exists (DecodeRemoteError s e)|].
    destruct (Stdio r).
    + destruct hst; [now exists OnlyOneStdio|].
      apply IH. cbn [List.length] in H.
      unfold stdioCount. lia.
    + apply IH. exact H.
Qed.

(** Over a prefix of specs that all decode, with at most one stdio among
    them and the flag, the loop runs on to the rest of the list. *)
Lemma decodeRemotes_prefix (pre rest : list string) :
  forall hasReverse hasSocks (hasStdio : bool) remotes,
    forallb decodes pre = true ->
    stdioCount pre + (if hasStdio then 1 else 0) <= 1 ->
    exists hasReverse' hasSocks' hasStdio' remotes',
      decodeRemotes (pre ++ rest) hasReverse hasSocks hasStdio remotes =
      decodeRemotes rest hasReverse' hasSocks' hasStdio' remotes'.
Proof.
  induction pre as [|s pre IH]; intros hr hs hst acc Hd Hc.
  - now exists hr, hs, hst, acc.
  - cbn [forallb] in Hd. apply andb_true_iff in Hd as [Hs Hd].
    cbn [app decodeRemotes]. unfold stdioCount in Hc. cbn [filter] in Hc.
    unfold stdioFlagged at 1 in Hc. unfold decodes in Hs.
    destruct (DecodeRemote s) as [e|r]; [discriminate|].
    destruct (Stdio r).
    + cbn [List.length] in Hc.
      destruct hst; [lia|]. apply IH; [exact Hd|]. unfold stdioCount. lia.
    + apply IH; [exact Hd|exact Hc].
Qed.

Lemma NewClient_fails_when_remotes_fail (c : Config) :
  (exists e, decodeRemotes (Remotes c) false false false [] = inl e) ->
  exists e, snd (NewClient c) = inl e.
Proof.
  intros [e He]. unfold NewClient. cbn [snd].
  rewrite Remotes_defaults.
  destruct (resolveEndpoint _) as [e'|u]; [now exists (ServerURLError e')|].
  rewrite He. now exists e.
Qed.

(** C5, amended.  If any spec of the list fails to decode, construction
    fails; if two or more specs are stdio-flagged, construction fails; in
    both cases no client is returned.  The error names the undecodable spec
    when the server URL resolves and that spec is the first of the list at
    which the loop stops: every spec before it decodes, and at most one of
    them is stdio-flagged. *)
Theorem NewClient_remote_errors (c : Config) :
  ((exists s, In s (Remotes c) /\ decodes s = false) ->
   exists e, snd (NewClient c) = inl e) /\
  (2 <= stdioCount (Remotes c) ->
   exists e, snd (NewClient c) = inl e) /\
  (forall pre s post e u,
     Remotes c = (pre ++ s :: post)%list ->
     resolveEndpoint (Server (fst (NewClient c))) = inr u ->
     forallb decodes pre = true ->
     stdioCount pre <= 1 ->
     DecodeRemote s = inl e ->
     snd (NewClient c) = inl (DecodeRemoteError s e) /\
     strings.Contains (decodeErrorText s e) s = true).
Proof.
  split; [|split].
  - intros H. apply NewClient_fails_when_remotes_fail.
    now apply decodeRemotes_undecodable.
  - intros H. apply NewClient_fails_when_remotes_fail.
    apply decodeRemotes_two_stdio. lia.
  - intros pre s post e u Hr Hu Hd Hc Hs. split.
    + unfold NewClient in *. cbn [fst snd] in *.
      rewrite Hu, Remotes_defaults, Hr.
      assert (Hc' : stdioCount pre + (if false then 1 else 0) <= 1) by lia.
      destruct (decodeRemotes_prefix pre (s :: post) false false false []
                  Hd Hc') as (hr & hs & hst & acc & ->).
      cbn [decodeRemotes]. rewrite Hs. reflexivity.
    + apply (Contains_middle "Failed to decode remote '" s).
Qed.

End NewClientFacts.

(** *** The reconnection loop *)

Section ConnectionLoop.

Context {collab : Collaborators}.

Lemma float64_of_uint64_0 : backoff.float64_of_uint64 0 = 0%Z.
Proof. reflexivity. Qed.

Lemma firstDelay_eq (c : Client) :
  firstDelay c = ForAttempt (MaxRetryInterval (config c)) 0.
Proof. reflexivity. Qed.

(** After a connected attempt the loop goes on with a reset backoff, whose
    next delay is the one of attempt zero. *)
Lemma afterAttempt_connected (c : Client) (b : backoff.Backoff) (retry : bool) :
  fst (afterAttempt c b true retry) = backoff.Reset b /\
  backoff.Duration_ (backoff.Reset b) =
  (ForAttempt (backoff.Max b) 0, {| backoff.Max := backoff.Max b; backoff.attempt := 1 |}).
Proof. split; reflexivity. Qed.

Lemma afterAttempt_Max (c : Client) (b : backoff.Backoff) (connected retry : bool) :
  backoff.Max (fst (afterAttempt c b connected retry)) = backoff.Max b.
Proof. destruct connected; reflexivity. Qed.

(** C2. With a maximum retry count of zero and a first dial that fails, the
    loop makes one attempt, does not sleep, closes the client and returns no
    error, whatever the world would have done next.  A goroutine that returns
    no error leaves the group's error as it was: once the loop and the
    listener binder of [Start] have both returned, [Wait] on the group
    reports what the binder returned. *)
Theorem single_attempt_when_no_retries (c : Client) (l : Lifecycle)
    (it : Iteration) (rest : list Iteration) (e : error) :
  MaxRetryCount (config c) = 0%Z ->
  ctxDone (attempt it) = false ->
  cancelled l = false ->
  (forall p, proxyURL c = Some p ->
             exists strategy, setProxy p (attempt it) = inr strategy) ->
  dial (attempt it) = Some e ->
  connectionLoop c l (it :: rest) =
    {| trace := [EvAttempt false true (Some e); EvClose];
       final := fst (Close l);
       returned := Some None |} /\
  (forall g, err (Group_done None g) = err g) /\
  (forall parentDone l0 g binder,
     eg (fst (Start parentDone l0)) = Some g ->
     Group_Wait (Group_done binder (Group_done None g)) = Returns binder).
Proof.
  intros Hmax Hctx Hcan Hproxy Hdial. split; [|split].
  - unfold connectionLoop. cbn [loop].
    rewrite (connectionOnce_dial_fails c l (attempt it) e Hctx Hcan Hproxy Hdial).
    unfold afterAttempt. rewrite Hmax. reflexivity.
  - intros g. unfold Group_done. cbn [err]. now destruct (err g).
  - intros parentDone l0 g binder [= <-]. reflexivity.
Qed.

(** C3. An attempt that returns connected resets the backoff counter to
    zero before the next delay is computed, whatever error the session ended
    with; so in every run of the loop, from a backoff with any count of
    earlier failures, the delay right after a connected attempt is the
    first-attempt delay. *)
Theorem backoff_reset_on_connected (c : Client) :
  (forall b retry,
     backoff.attempt (fst (afterAttempt c b true retry)) = 0%Z /\
     fst (backoff.Duration_ (fst (afterAttempt c b true retry))) =
       ForAttempt (backoff.Max b) 0) /\
  (forall script l b pre retry e ev post d,
     backoff.Max b = MaxRetryInterval (config c) ->
     trace (loop c l b script) =
       (pre ++ EvAttempt true retry e :: ev :: post)%list ->
     ev = EvSleep d \/ ev = EvSleepCancelled d ->
     d = firstDelay c).
Proof.
  split; [intros b retry; split; reflexivity|].
  induction script as [|it script IH];
    intros l b pre retry e ev post d HMax Htr Hev.
  - cbn in Htr. now destruct pre.
  - cbn [loop] in Htr.
    destruct (connectionOnce c l (attempt it)) as [[conn r] er].
    pose proof (afterAttempt_Max c b conn r) as HM.
    pose proof (afterAttempt_connected c b r) as [HR HD].
    destruct (afterAttempt c b conn r) as [b1 giveUp] eqn:Ea.
    cbn [fst] in HM.
    destruct giveUp.
    { cbn [trace] in Htr.
      destruct pre as [|x [|y pre]]; cbn in Htr.
      - injection Htr as _ _ _ <- _. destruct Hev; discriminate.
      - injection Htr as _ Hx _. discriminate.
      - injection Htr as _ _ Hx. now destruct pre. }
    destruct (backoff.Duration_ b1) as [d1 b2] eqn:Ed.
    assert (HM2 : backoff.Max b2 = MaxRetryInterval (config c)).
    { unfold backoff.Duration_ in Ed. injection Ed as _ <-. cbn. congruence. }
    assert (Hfirst : conn = true -> d1 = firstDelay c).
    { intros ->. rewrite Ea in HR. cbn [fst] in HR. subst b1.
      rewrite HD in Ed.
      injection Ed as <- _. now rewrite HMax. }
    destruct (sleepCancelled it); cbn [trace] in Htr.
    { destruct pre as [|x [|y pre]]; cbn in Htr.
      - injection Htr as -> _ _ <- _.
        destruct Hev as [Hev|Hev]; [discriminate|].
        injection Hev as <-. now apply Hfirst.
      - injection Htr as _ Hx _. discriminate.
      - injection Htr as _ _ Hx. now destruct pre. }
    destruct pre as [|x [|y pre]]; cbn in Htr.
    + injection Htr as -> _ _ <- _.
      destruct Hev as [Hev|Hev]; [|discriminate].
      injection Hev as <-. now apply Hfirst.
    + injection Htr as _ Hx _. discriminate.
    + injection Htr as _ _ Hx.
      exact (IH l b2 pre retry e ev post d HM2 Hx Hev).
Qed.

(** In a new loop, a first attempt that fails without connecting and is
    retried is followed by the first-attempt delay. *)
Lemma first_failure_delay (c : Client) (l : Lifecycle) (it : Iteration)
    (rest : list Iteration) (retry : bool) (e : option error) (ev : Event)
    (post : list Event) (d : Duration) :
  trace (connectionLoop c l (it :: rest)) = EvAttempt false retry e :: ev :: post ->
  ev = EvSleep d \/ ev = EvSleepCancelled d ->
  d = firstDelay c.
Proof.
  unfold connectionLoop. cbn [loop].
  destruct (connectionOnce c l (attempt it)) as [[conn r] er].
  intros Htr Hev.
  assert (conn = false) as ->.
  { destruct (afterAttempt c _ conn r) as [b1 [|]];
      [|destruct (backoff.Duration_ b1) as [d1 b2];
        destruct (sleepCancelled it)];
      cbn [trace] in Htr; now injection Htr. }
  unfold afterAttempt in Htr.
  destruct (negb r || _); cbn [trace] in Htr.
  - injection Htr as _ _ <- _. destruct Hev; discriminate.
  - cbn [backoff.Duration_ backoff.new backoff.Max backoff.attempt] in Htr.
    destruct (sleepCancelled it); cbn [trace] in Htr;
      injection Htr as _ _ <- _; destruct Hev as [Hev|Hev];
      try discriminate; now injection Hev as <-.
Qed.

End ConnectionLoop.

(** *** [NewClient]: what a successful construction holds *)

Section NewClientResult.

Context {collab : Collaborators}.

(** When the loop over the specs succeeds, every spec decoded: the remotes
    are the decoded specs in order, appended to those given, each flag is
    set when it was set before or one of the remotes has it, and there is at
    most one stdio-flagged remote, the flag counting for one. *)
Lemma decodeRemotes_inr (specs : list string) :
  forall hasReverse hasSocks (hasStdio : bool) remotes hr' hs' hst' remotes',
    decodeRemotes specs hasReverse hasSocks hasStdio remotes =
      inr (hr', hs', hst', remotes') ->
    exists rs,
      map DecodeRemote specs = map inr rs /\
      remotes' = (remotes ++ rs)%list /\
      hr' = hasReverse || existsb Reverse rs /\
      hs' = hasSocks || existsb Socks rs /\
      hst' = hasStdio || existsb Stdio rs /\
      List.length (filter Stdio rs) + (if hasStdio then 1 else 0) <= 1.
Proof.
  induction specs as [|s specs IH];
    intros hr hs hst acc hr' hs' hst' acc' H.
  - cbn in H. injection H as <- <- <- <-. exists [].
    rewrite app_nil_r, !orb_false_r. cbn. repeat split. destruct hst; lia.
  - cbn [decodeRemotes] in H.
    destruct (DecodeRemote s) as [e|r] eqn:Es; [discriminate|].
    destruct (Stdio r) eqn:Est.
    + destruct hst; [discriminate|].
      destruct (IH _ _ _ _ _ _ _ _ H) as (rs & Hm & Ha & Hr & Hs & Ht & Hc).
      exists (r :: rs). cbn [map existsb filter]. rewrite Es, Hm, Est.
      repeat split.
      * rewrite Ha, <- app_assoc. reflexivity.
      * rewrite Hr. destruct (Reverse r), hr; reflexivity.
      * rewrite Hs. destruct (Socks r), hs; reflexivity.
      * exact Ht.
      * cbn [List.length]. lia.
    + destruct (IH _ _ _ _ _ _ _ _ H) as (rs & Hm & Ha & Hr & Hs & Ht & Hc).
      exists (r :: rs). cbn [map existsb filter]. rewrite Es, Hm, Est.
      repeat split.
      * rewrite Ha, <- app_assoc. reflexivity.
      * rewrite Hr. destruct (Reverse r), hr; reflexivity.
      * rewrite Hs. destruct (Socks r), hs; reflexivity.
      * rewrite Ht. reflexivity.
      * exact Hc.
Qed.

Lemma stdioCount_decoded (specs : list string) (rs : list Remote) :
  map DecodeRemote specs = map inr rs ->
  stdioCount specs = List.length (filter Stdio rs) /\
  forallb decodes specs = true.
Proof.
  revert rs; induction specs as [|s specs IH]; intros [|r rs] H;
    try discriminate; [now split|].
  cbn [map] in H. injection H as Hs Hrest.
  destruct (IH rs Hrest) as [Hc Hd].
  unfold stdioCount in *. cbn [filter forallb].
  unfold stdioFlagged at 1. unfold decodes at 1. rewrite Hs, Hd.
  split; [|reflexivity].
  destruct (Stdio r); cbn [List.length]; now rewrite Hc.
Qed.

(** The client of a successful construction, field by field. *)
Lemma NewClient_inr (c : Config) (client : Client) :
  snd (NewClient c) = inr client ->
  exists u rs proxy,
    resolveEndpoint (Server (fst (NewClient c))) = inr u /\
    map DecodeRemote (Remotes c) = map inr rs /\
    List.length (filter Stdio rs) <= 1 /\
    parseProxy (Proxy (fst (NewClient c))) = inr proxy /\
    client =
      {| config := fst (NewClient c);
         computed := {| Version := BuildVersion; computed_Remotes := rs |};
         sshConfig :=
           {| ssh_User := fst (ParseAuth (Auth (fst (NewClient c))));
              ssh_Password := snd (ParseAuth (Auth (fst (NewClient c))));
              ClientVersion := "SSH-" ++ ProtocolVersion ++ "-client";
              Timeout := (30 * Second)%Z |};
         proxyURL := proxy;
         server := u;
         tunnel := {| Inbound := true; Outbound := existsb Reverse rs;
                      tunnel_Socks := existsb Reverse rs && existsb Socks rs |} |}.
Proof.
  unfold NewClient. cbn [fst snd].
  set (c' := applyDefaultInterval (applyDefaultScheme c)).
  destruct (resolveEndpoint (Server c')) as [e|u]; [discriminate|].
  destruct (decodeRemotes (Remotes c') false false false [])
    as [e|[[[hr hs] hst] remotes]] eqn:Ed; [discriminate|].
  destruct (parseProxy (Proxy c')) as [e|proxy]; [discriminate|].
  apply decodeRemotes_inr in Ed as (rs & Hm & Ha & Hr & Hs & Ht & Hc).
  cbn in Ha, Hr, Hs. subst remotes hr hs.
  unfold c' in Hm. rewrite Remotes_defaults in Hm.
  destruct (ParseAuth (Auth c')) as [user pass]. intros [= <-].
  exists u, rs, proxy. repeat split; [exact Hm | lia].
Qed.



(** A client is returned only when every spec decodes: its remotes are the
    decoded specs, one per spec and in the order of the list, and at most
    one of them is stdio-flagged. *)
Theorem NewClient_remotes_decoded (c : Config) (client : Client) :
  snd (NewClient c) = inr client ->
  map inr (computed_Remotes (computed client)) = map DecodeRemote (Remotes c) /\
  List.length (computed_Remotes (computed client)) = List.length (Remotes c) /\
  List.length (filter Stdio (computed_Remotes (computed client))) <= 1 /\
  stdioCount (Remotes c) <= 1.
Proof.
  intros H. apply NewClient_inr in H as (u & rs & proxy & _ & Hm & Hc & _ & ->).
  cbn [computed computed_Remotes].
  split; [now symmetry|]. split.
  - rewrite <- (length_map (@inr string Remote) rs), <- Hm. apply length_map.
  - split; [exact Hc|]. now rewrite (proj1 (stdioCount_decoded _ _ Hm)).
Qed.

(** The tunnel of a client always accepts inbound connections; it is
    outbound exactly when some remote is reversed, and has SOCKS exactly
    when some remote is reversed and some remote is a SOCKS remote. *)
Theorem NewClient_tunnel_flags (c : Config) (client : Client) :
  snd (NewClient c) = inr client ->
  let rs := computed_Remotes (computed client) in
  Inbound (tunnel client) = true /\
  Outbound (tunnel client) = existsb Reverse rs /\
  tunnel_Socks (tunnel client) = existsb Reverse rs && existsb Socks rs /\
  (existsb Reverse rs = false -> tunnel_Socks (tunnel client) = false).
Proof.
  intros H. apply NewClient_inr in H as (u & rs & proxy & _ & _ & _ & _ & ->).
  cbn. repeat split. now intros ->.
Qed.

End NewClientResult.

(** *** [NewClient]: when construction succeeds, and explicit schemes *)

Section NewClientSuccess.

Context {collab : Collaborators}.

Lemma Proxy_defaults (c : Config) : Proxy (fst (NewClient c)) = Proxy c.
Proof.
  unfold NewClient, applyDefaultInterval, applyDefaultScheme. cbn [fst].
  destruct (negb _); destruct (_ <? _)%Z; reflexivity.
Qed.

(** With every spec decoding, the loop fails with the stdio error as soon as
    the stdio-flagged specs, the flag counting for one, are two. *)
Lemma decodeRemotes_second_stdio (specs : list string) :
  forall hasReverse hasSocks (hasStdio : bool) remotes,
    forallb decodes specs = true ->
    2 <= stdioCount specs + (if hasStdio then 1 else 0) ->
    decodeRemotes specs hasReverse hasSocks hasStdio remotes = inl OnlyOneStdio.
Proof.
  induction specs as [|s specs IH]; intros hr hs hst acc Hd Hc.
  - unfold stdioCount in Hc. cbn in Hc. destruct hst; lia.
  - cbn [forallb] in Hd. apply andb_true_iff in Hd as [Hs Hd].
    cbn [decodeRemotes]. unfold stdioCount in Hc. cbn [filter] in Hc.
    unfold stdioFlagged at 1 in Hc. unfold decodes in Hs.
    destruct (DecodeRemote s) as [e|r]; [discriminate|].
    destruct (Stdio r).
    + destruct hst; [reflexivity|].
      apply IH; [exact Hd|]. cbn [List.length] in Hc. unfold stdioCount. lia.
    + apply IH; [exact Hd|exact Hc].
Qed.

(** When the server resolves and every spec decodes, two or more
    stdio-flagged specs make construction fail with the stdio error. *)
Theorem NewClient_second_stdio (c : Config) (u : url.URL) :
  resolveEndpoint (Server (fst (NewClient c))) = inr u ->
  forallb decodes (Remotes c) = true ->
  2 <= stdioCount (Remotes c) ->
  snd (NewClient c) = inl OnlyOneStdio.
Proof.
  intros Hu Hd Hc. unfold NewClient in *. cbn [fst snd] in *.
  rewrite Hu, Remotes_defaults.
  rewrite decodeRemotes_second_stdio; [reflexivity|exact Hd|lia].
Qed.

(** [NewClient] returns a client exactly when the server string (after the
    default scheme) parses, every remote spec decodes, at most one spec is
    stdio-flagged, and the proxy string is empty or parses. *)
Theorem NewClient_succeeds_iff (c : Config) :
  (exists client, snd (NewClient c) = inr client) <->
  (exists u, resolveEndpoint (Server (fst (NewClient c))) = inr u) /\
  forallb decodes (Remotes c) = true /\
  stdioCount (Remotes c) <= 1 /\
  (Proxy c = "" \/ exists p, url.Parse (Proxy c) = inr p).
Proof.
  split.
  - intros [client H].
    apply NewClient_inr in H as (u & rs & proxy & Hu & Hm & Hc & Hp & _).
    destruct (stdioCount_decoded _ _ Hm) as [Hn Hd].
    split; [now exists u|]. split; [exact Hd|]. split; [lia|].
    rewrite Proxy_defaults in Hp. unfold parseProxy in Hp.
    destruct (String.eqb (Proxy c) "") eqn:Ee.
    + left. now apply String.eqb_eq.
    + right. destruct (url.Parse (Proxy c)) as [e|p]; [discriminate|].
      now exists p.
  - intros ([u Hu] & Hd & Hc & Hp).
    unfold NewClient in *. cbn [fst snd] in *.
    rewrite Hu, Remotes_defaults.
    assert (Hc' : stdioCount (Remotes c) + (if false then 1 else 0) <= 1)
      by lia.
    destruct (decodeRemotes_prefix (Remotes c) [] false false false []
                Hd Hc') as (hr & hs & hst & acc & E).
    rewrite app_nil_r in E. rewrite E. cbn [decodeRemotes].
    fold (fst (NewClient c)). 
    assert (Ep : exists proxy,
               parseProxy (Proxy (applyDefaultInterval (applyDefaultScheme c)))
               = inr proxy).
    { change (applyDefaultInterval (applyDefaultScheme c))
        with (fst (NewClient c)).
      rewrite Proxy_defaults. unfold parseProxy.
      destruct Hp as [-> | [p ->]]; [now exists None|].
      destruct (String.eqb (Proxy c) ""); eauto. }
    destruct Ep as [proxy ->].
    destruct (ParseAuth _) as [user pass]. eauto.
Qed.

Lemma getScheme_https (x : string) :
  url.getScheme ("https://" ++ x) = inr ("https", "//" ++ x).
Proof. reflexivity. Qed.

(** Whatever follows [https://], a URL that parses has the scheme [https]. *)
Lemma parse_https_scheme (x : string) (u : url.URL) :
  url.parse ("https://" ++ x) = inr u -> url.Scheme u = "https".
Proof.
  unfold url.parse.
  destruct (url.stringContainsCTLByte _); [discriminate|].
  change (String.eqb ("https://" ++ x) "*") with false. cbv iota.
  rewrite getScheme_https. cbn [url.bind].
  change (strings.ToLower "https") with "https".
  pose proof (Cut_cons "/" "?" (String "/" x) eq_refl) as E.
  rewrite (Cut_cons "/" "?" x eq_refl) in E.
  change ("//" ++ x) with (String "/" (String "/" x)).
  destruct (strings.Cut (String "/" (String "/" x)) "?") as [[rest q] f].
  cbn [fst] in E. subst rest.
  set (r := fst (fst (strings.Cut x "?"))).
  change (strings.HasPrefix (String "/" (String "/" r)) "/") with true.
  change (strings.HasPrefix (String "/" (String "/" r)) "//") with true.
  change (String.eqb "https" "") with false.
  cbn [negb andb orb].
  destruct (strings.Cut _ "/") as [[authority after] found].
  destruct (url.parseAuthority authority) as [e|[user host]];
    cbn [url.bind]; [discriminate|].
  destruct (url.unescape _ url.encodePath); cbn [url.bind]; [discriminate|].
  intros H; injection H as <-. reflexivity.
Qed.

Lemma Parse_https_scheme (x : string) (u : url.URL) :
  url.Parse ("https://" ++ x) = inr u -> url.Scheme u = "https".
Proof.
  unfold url.Parse.
  assert (E : fst (fst (strings.Cut ("https://" ++ x) "#")) =
              "https://" ++ fst (fst (strings.Cut x "#"))).
  { cbn [append].
    now rewrite !Cut_cons by reflexivity. }
  destruct (strings.Cut ("https://" ++ x) "#") as [[raw frag] f].
  cbn [fst] in E. subst raw.
  destruct (url.parse _) as [e|v] eqn:Ev; cbn [url.bind]; [discriminate|].
  apply parse_https_scheme in Ev.
  destruct (String.eqb frag ""); [now intros [= <-]|].
  destruct (url.unescape frag _); cbn [url.bind]; [discriminate|].
  intros [= <-]. exact Ev.
Qed.

Lemma Server_defaults_http (c : Config) :
  strings.HasPrefix (Server c) "http" = true ->
  Server (fst (NewClient c)) = Server c.
Proof.
  intros H. unfold NewClient, applyDefaultInterval, applyDefaultScheme.
  cbn [fst]. rewrite H. destruct (_ <? _)%Z; reflexivity.
Qed.

(** The endpoint a parsed URL resolves to, by the URL's scheme and host. *)
Lemma resolveEndpoint_of_parsed (server : string) (v u : url.URL) (port : string) :
  url.Parse server = inr v ->
  resolveEndpoint server = inr u ->
  (forall h, url.Host (applyDefaultPort (withHost v h)) = h ++ port \/ matchPort h = true) ->
  url.Scheme u = strings.Replace1 (url.Scheme v) "http" "ws" /\
  matchPort (url.Host u) = true /\
  (matchPort (url.Host v) = true -> url.Host u = url.Host v) /\
  (matchPort (url.Host v) = false -> url.Host u = url.Host v ++ port).
Proof.
  intros Hv Hu Hport. unfold resolveEndpoint in Hu. rewrite Hv in Hu.
  injection Hu as <-. split; [|split; [|split]].
  - unfold swapScheme, applyDefaultPort. cbn [withScheme url.Scheme].
    destruct (negb _); [destruct (_ || _)|]; reflexivity.
  - cbn [swapScheme withScheme url.Host]. apply applyDefaultPort_has_port.
  - intros Hm. cbn [swapScheme withScheme url.Host].
    unfold applyDefaultPort. now rewrite Hm.
  - intros Hm. cbn [swapScheme withScheme url.Host].
    destruct (Hport (url.Host v)) as [H|H]; [|congruence].
    destruct v; exact H.
Qed.

(** A server written with an explicit scheme is taken as it is: [http://]
    resolves to the scheme [ws] and [https://] to [wss]; a host that has a
    port keeps it, and a host without one gets [:80] and [:443]. *)
Theorem endpoint_of_explicit_scheme (c : Config) (x : string) (v u : url.URL) :
  Server c = "http://" ++ x \/ Server c = "https://" ++ x ->
  url.Parse (Server c) = inr v ->
  resolveEndpoint (Server (fst (NewClient c))) = inr u ->
  Server (fst (NewClient c)) = Server c /\
  url.Scheme u = (if strings.HasPrefix (Server c) "https" then "wss" else "ws") /\
  matchPort (url.Host u) = true /\
  (matchPort (url.Host v) = true -> url.Host u = url.Host v) /\
  (matchPort (url.Host v) = false ->
   url.Host u = url.Host v ++
     (if strings.HasPrefix (Server c) "https" then ":443" else ":80")).
Proof.
  intros Hs Hv Hu.
  assert (Hp : strings.HasPrefix (Server c) "http" = true)
    by (destruct Hs as [-> | ->]; reflexivity).
  rewrite (Server_defaults_http c Hp) in *. split; [reflexivity|].
  destruct Hs as [Hs|Hs]; rewrite Hs in *.
  - pose proof (Parse_http_scheme _ _ Hv) as Hsch.
    change (strings.HasPrefix ("http://" ++ x) "https") with false. cbv iota.
    destruct (resolveEndpoint_of_parsed _ v u ":80" Hv Hu) as (H1 & H2 & H3 & H4).
    { intros h. unfold applyDefaultPort. cbn [withHost url.Host url.Scheme].
      rewrite Hsch. destruct (matchPort h); [now right|now left]. }
    rewrite Hsch in H1. now repeat split.
  - pose proof (Parse_https_scheme _ _ Hv) as Hsch.
    change (strings.HasPrefix ("https://" ++ x) "https") with true. cbv iota.
    destruct (resolveEndpoint_of_parsed _ v u ":443" Hv Hu) as (H1 & H2 & H3 & H4).
    { intros h. unfold applyDefaultPort. cbn [withHost url.Host url.Scheme].
      rewrite Hsch. destruct (matchPort h); [now right|now left]. }
    rewrite Hsch in H1. now repeat split.
Qed.

End NewClientSuccess.

(** *** [setProxy] and the outcomes of [connectionOnce] *)

Section AttemptOutcomes.

(** A proxy whose scheme does not begin with [socks] is used as a CONNECT
    proxy; [socks] and [socks5h] give a SOCKS5 dialer to the proxy's host,
    with the user and password of the URL (an absent password is empty),
    unless building the dialer fails; any other scheme that begins with
    [socks] is refused with an error that names it. *)
Theorem setProxy_by_scheme (u : url.URL) (w : Attempt) :
  (strings.HasPrefix (url.Scheme u) "socks" = false ->
   setProxy u w = inr (ConnectProxy u)) /\
  (url.Scheme u = "socks" \/ url.Scheme u = "socks5h" ->
   setProxy u w =
   match socks5 w with
   | Some err => inl err
   | None =>
       inr (Socks5 (url.Host u)
              (option_map
                 (fun info =>
                    (url.username info,
                     match url.password info with Some p => p | None => "" end))
                 (url.User u)))
   end) /\
  (strings.HasPrefix (url.Scheme u) "socks" = true ->
   url.Scheme u <> "socks" -> url.Scheme u <> "socks5h" ->
   exists err,
     setProxy u w = inl err /\
     Temporary err = None /\
     strings.Contains (Error err) (url.Scheme u) = true).
Proof.
  unfold setProxy. split; [|split].
  - intros ->. reflexivity.
  - intros [-> | ->]; cbn [strings.HasPrefix negb andb String.eqb];
      destruct (url.User u); reflexivity.
  - intros Hp H1 H2. rewrite Hp. cbn [negb].
    apply String.eqb_neq in H1, H2. rewrite H1, H2. cbn [negb andb].
    eexists. split; [reflexivity|]. split; [reflexivity|].
    cbn [Error errors_New].
    apply (Contains_middle "unsupported socks proxy type: " (url.Scheme u)).
Qed.

(** An attempt returns connected only after every stage went through: the
    context was live, the dial and the handshake succeeded and the server
    accepted the configuration with an empty reply.  What it returns then is
    the error the session ended with, and it is retriable unless that error
    is a network error marked non-temporary. *)
Theorem connected_only_after_negotiation (c : Client) (l : Lifecycle)
    (w : Attempt) :
  fst (fst (connectionOnce c l w)) = true ->
  ctxDone w = false /\ cancelled l = false /\
  dial w = None /\ handshake w = None /\ sendRequest w = ([], None) /\
  snd (connectionOnce c l w) = bindSSH w /\
  snd (fst (connectionOnce c l w)) =
    match bindSSH w with
    | Some e => negb (nonTemporary e)
    | None => true
    end.
Proof.
  unfold connectionOnce.
  destruct (ctxDone w); [discriminate|].
  destruct (cancelled l); [discriminate|]. cbn [orb].
  destruct (match proxyURL c with Some p => setProxy p w | None => inr Direct end);
    [discriminate|].
  destruct (dial w); [discriminate|].
  destruct (handshake w); [discriminate|].
  destruct (sendRequest w) as [configerr [e|]]; [discriminate|].
  destruct configerr as [|x xs]; [|discriminate].
  cbn. intros _. repeat split.
Qed.

(** An attempt that does not connect always returns an error; it is
    retriable only when the dial failed, or when the handshake failed with
    an error that is neither an authentication rejection nor a network error
    marked non-temporary.  A done context, a refused proxy and a failed
    negotiation are never retried. *)
Theorem failed_attempt_outcome (c : Client) (l : Lifecycle) (w : Attempt) :
  fst (fst (connectionOnce c l w)) = false ->
  exists err,
    snd (connectionOnce c l w) = Some err /\
    (snd (fst (connectionOnce c l w)) = true ->
     ctxDone w = false /\ cancelled l = false /\
     (dial w = Some err \/
      dial w = None /\ handshake w = Some err /\
      authRejected err = false /\ Temporary err <> Some false)).
Proof.
  unfold connectionOnce.
  destruct (ctxDone w); [intros _; eexists; split; [reflexivity|discriminate]|].
  destruct (cancelled l); [intros _; eexists; split; [reflexivity|discriminate]|].
  cbn [orb].
  destruct (match proxyURL c with Some p => setProxy p w | None => inr Direct end);
    [intros _; eexists; split; [reflexivity|discriminate]|].
  destruct (dial w) as [e|].
  { intros _. exists e. split; [reflexivity|]. intros _. auto. }
  destruct (handshake w) as [e|].
  { intros _. exists e. split; [reflexivity|]. cbn [fst snd].
    fold (authRejected e).
    destruct (authRejected e); [discriminate|].
    destruct (nonTemporary e) eqn:En; [discriminate|].
    intros _. repeat split. right. repeat split.
    intros Ht. apply nonTemporary_true in Ht. congruence. }
  destruct (sendRequest w) as [configerr [e|]].
  { intros _. eexists. split; [reflexivity|discriminate]. }
  destruct configerr as [|x xs]; [discriminate|].
  intros _. eexists. split; [reflexivity|discriminate].
Qed.

End AttemptOutcomes.

(** *** Runs of the reconnection loop *)

Section LoopRuns.

Context {collab : Collaborators}.

(** How a run ends.  While the loop is going it has made one attempt per
    iteration and has not closed the client.  When it returns it returns no
    error, and either its last step is [Close] (it gave up), or it was
    cancelled during a sleep and did not close the client. *)
Lemma loop_exit (c : Client) (l : Lifecycle) (script : list Iteration) :
  forall b,
    match returned (loop c l b script) with
    | None =>
        final (loop c l b script) = l /\
        ~ In EvClose (trace (loop c l b script)) /\
        attempts (trace (loop c l b script)) = List.length script
    | Some res =>
        res = None /\
        attempts (trace (loop c l b script)) <= List.length script /\
        ((exists pre,
            trace (loop c l b script) = (pre ++ [EvClose])%list /\
            ~ In EvClose pre /\
            final (loop c l b script) = fst (Close l)) \/
         (exists pre d,
            trace (loop c l b script) = (pre ++ [EvSleepCancelled d])%list /\
            ~ In EvClose pre /\
            final (loop c l b script) = l))
    end.
Proof.
  induction script as [|it script IH]; intros b.
  - cbn. repeat split. intros [].
  - cbn [loop].
    destruct (connectionOnce c l (attempt it)) as [[conn r] er].
    destruct (afterAttempt c b conn r) as [b1 giveUp].
    destruct giveUp.
    { cbn [returned trace final attempts List.length].
      split; [reflexivity|]. split; [lia|]. left.
      exists [EvAttempt conn r er]. repeat split.
      intros [H|[]]. discriminate H. }
    destruct (backoff.Duration_ b1) as [d b2].
    destruct (sleepCancelled it).
    { cbn [returned trace final attempts List.length].
      split; [reflexivity|]. split; [lia|]. right.
      exists [EvAttempt conn r er], d. repeat split.
      intros [H|[]]. discriminate H. }
    specialize (IH b2). cbn [returned trace final attempts List.length].
    destruct (returned (loop c l b2 script)) as [res|].
    + destruct IH as (Hres & Hn & Hend). split; [exact Hres|].
      split; [lia|].
      destruct Hend as [(pre & Ht & Hp & Hf)|(pre & d' & Ht & Hp & Hf)].
      * left. exists (EvAttempt conn r er :: EvSleep d :: pre).
        rewrite Ht. repeat split; [|exact Hf].
        intros [H|[H|H]]; [discriminate H|discriminate H|exact (Hp H)].
      * right. exists (EvAttempt conn r er :: EvSleep d :: pre), d'.
        rewrite Ht. repeat split; [|exact Hf].
        intros [H|[H|H]]; [discriminate H|discriminate H|exact (Hp H)].
    + destruct IH as (Hf & Hc & Hn). split; [exact Hf|]. split.
      * intros [H|[H|H]]; [discriminate H|discriminate H|exact (Hc H)].
      * now rewrite Hn.
Qed.

(** [connectionLoop] never returns an error, and ends in one of two ways:
    it gives up, and then [Close] is its last step and nothing before it
    closed the client; or it is cancelled during a sleep, and then it leaves
    without closing the client.  It makes at most one attempt per
    iteration. *)
Theorem connectionLoop_exit (c : Client) (l : Lifecycle)
    (script : list Iteration) (res : option error) :
  returned (connectionLoop c l script) = Some res ->
  res = None /\
  attempts (trace (connectionLoop c l script)) <= List.length script /\
  ((exists pre,
      trace (connectionLoop c l script) = (pre ++ [EvClose])%list /\
      ~ In EvClose pre /\
      final (connectionLoop c l script) = fst (Close l)) \/
   (exists pre d,
      trace (connectionLoop c l script) = (pre ++ [EvSleepCancelled d])%list /\
      ~ In EvClose pre /\
      final (connectionLoop c l script) = l)).
Proof.
  unfold connectionLoop. intros H.
  pose proof (loop_exit c l script (backoff.new (MaxRetryInterval (config c))))
    as E.
  rewrite H in E. exact E.
Qed.

(** With a negative maximum retry count the loop never gives up on a
    retriable attempt, connected or not: while every attempt is retriable
    and no sleep is cancelled, it is still going and has made one attempt
    per iteration. *)
Theorem unbounded_retries_never_give_up (c : Client) (l : Lifecycle)
    (script : list Iteration) :
  (MaxRetryCount (config c) < 0)%Z ->
  (forall it, In it script ->
     snd (fst (connectionOnce c l (attempt it))) = true /\
     sleepCancelled it = false) ->
  returned (connectionLoop c l script) = None /\
  attempts (trace (connectionLoop c l script)) = List.length script /\
  List.length (sleeps (trace (connectionLoop c l script))) = List.length script.
Proof.
  intros Hneg. unfold connectionLoop.
  generalize (backoff.new (MaxRetryInterval (config c))).
  induction script as [|it script IH]; intros b Hall; [now cbn|].
  destruct (Hall it (or_introl eq_refl)) as [Hr Hs].
  assert (Hrest : forall it', In it' script ->
            snd (fst (connectionOnce c l (attempt it'))) = true /\
            sleepCancelled it' = false)
    by (intros it' Hin; apply Hall; now right).
  cbn [loop].
  destruct (connectionOnce c l (attempt it)) as [[conn r] er].
  cbn [fst snd] in Hr. subst r.
  unfold afterAttempt.
  assert (Hge : (0 <=? MaxRetryCount (config c))%Z = false)
    by (apply Z.leb_gt; exact Hneg).
  rewrite Hge. cbn [negb orb andb].
  destruct (backoff.Duration_ _) as [d b2]. rewrite Hs.
  destruct (IH b2 Hrest) as (H1 & H2 & H3).
  cbn [returned trace attempts sleeps List.length].
  now rewrite H1, H2, H3.
Qed.

End LoopRuns.

(** *** The retry budget and the delays of consecutive failures *)

Section RetryBudget.

Context {collab : Collaborators}.

Local Open Scope Z_scope.

(** Below [2^53] the counter goes through [float64] and [int] unchanged,
    and advancing it does not wrap. *)
Lemma small_counter (a : Z) :
  0 <= a < 2 ^ 53 ->
  backoff.float64_of_uint64 a = a /\
  int_of_float64 a = a /\
  (a + 1) mod 2 ^ 64 = a + 1.
Proof.
  intros [H0 H1]. unfold backoff.float64_of_uint64, int_of_float64.
  assert (E1 : (a <? 2 ^ 53) = true) by (apply Z.ltb_lt; exact H1).
  assert (E2 : (a <? 2 ^ 63) = true) by (apply Z.ltb_lt; lia).
  rewrite E1, E2. repeat split. apply Z.mod_small. lia.
Qed.

(** One turn of the loop on an attempt that did not connect, with the
    counter at [a]. *)
Lemma afterAttempt_failed (c : Client) (b : backoff.Backoff) (retry : bool) :
  0 <= backoff.attempt b < 2 ^ 53 ->
  afterAttempt c b false retry =
    (b, negb retry ||
        ((0 <=? MaxRetryCount (config c)) &&
         (MaxRetryCount (config c) <=? backoff.attempt b))) /\
  backoff.Duration_ b =
    (ForAttempt (backoff.Max b) (backoff.attempt b),
     {| backoff.Max := backoff.Max b;
        backoff.attempt := backoff.attempt b + 1 |}).
Proof.
  intros Ha. destruct (small_counter _ Ha) as (E1 & E2 & E3).
  unfold afterAttempt, backoff.Duration_, backoff.Attempt.
  now rewrite E1, E2, E3.
Qed.

Lemma loop_budget (c : Client) (l : Lifecycle) (n : Z)
    (script : list Iteration) :
  MaxRetryCount (config c) = n -> n < 2 ^ 53 ->
  (forall it, In it script ->
     fst (fst (connectionOnce c l (attempt it))) = false) ->
  forall b,
    0 <= backoff.attempt b <= n ->
    (attempts (trace (loop c l b script))
       <= Z.to_nat (n - backoff.attempt b) + 1)%nat /\
    ((Z.to_nat (n - backoff.attempt b) < List.length script)%nat ->
     returned (loop c l b script) = Some None).
Proof.
  intros Hn Hbig.
  induction script as [|it script IH]; intros Hall b Ha.
  - cbn. split; lia.
  - assert (Hc := Hall it (or_introl eq_refl)).
    assert (Hrest : forall it', In it' script ->
              fst (fst (connectionOnce c l (attempt it'))) = false)
      by (intros it' Hin; apply Hall; now right).
    cbn [loop].
    destruct (connectionOnce c l (attempt it)) as [[conn r] er].
    cbn [fst] in Hc. subst conn.
    destruct (afterAttempt_failed c b r) as [Ea Ed]; [lia|].
    rewrite Ea, Ed.
    destruct (negb r || _) eqn:Eg.
    { cbn [trace returned attempts]. split; [lia|reflexivity]. }
    apply orb_false_iff in Eg as [_ Eg]. rewrite Hn in Eg.
    assert (Hlt : backoff.attempt b < n).
    { destruct (0 <=? n) eqn:E0; [|apply Z.leb_gt in E0; lia].
      cbn [andb] in Eg. now apply Z.leb_gt in Eg. }
    destruct (sleepCancelled it).
    { cbn [trace returned attempts]. split; [lia|reflexivity]. }
    set (b2 := {| backoff.Max := backoff.Max b;
                  backoff.attempt := backoff.attempt b + 1 |}).
    destruct (IH Hrest b2) as [H1 H2]; [cbn; lia|].
    cbn [backoff.attempt b2] in H1, H2.
    cbn [trace returned attempts List.length]. split.
    + replace (Z.to_nat (n - backoff.attempt b))
        with (S (Z.to_nat (n - (backoff.attempt b + 1)))) by lia.
      lia.
    + intros Hlen. apply H2. lia.
Qed.

(** With a maximum retry count [n] that is not negative, a loop whose
    attempts never connect makes at most [n + 1] attempts, and has returned
    once the world offered more than [n] iterations. *)
Theorem retry_budget_bounds_attempts (c : Client) (l : Lifecycle) (n : Z)
    (script : list Iteration) :
  MaxRetryCount (config c) = n -> 0 <= n < 2 ^ 53 ->
  (forall it, In it script ->
     fst (fst (connectionOnce c l (attempt it))) = false) ->
  (attempts (trace (connectionLoop c l script)) <= Z.to_nat n + 1)%nat /\
  ((Z.to_nat n < List.length script)%nat ->
   returned (connectionLoop c l script) = Some None).
Proof.
  intros Hn [H0 H1] Hall. unfold connectionLoop.
  pose proof (loop_budget c l n script Hn H1 Hall
                (backoff.new (MaxRetryInterval (config c)))) as H.
  cbn [backoff.new backoff.attempt] in H. rewrite Z.sub_0_r in H.
  apply H. lia.
Qed.

Lemma loop_schedule (c : Client) (l : Lifecycle) (script : list Iteration) :
  (forall it, In it script ->
     fst (connectionOnce c l (attempt it)) = (false, true) /\
     sleepCancelled it = false) ->
  forall b,
    0 <= backoff.attempt b ->
    backoff.attempt b + Z.of_nat (List.length script) < 2 ^ 53 ->
    (MaxRetryCount (config c) < 0 \/
     backoff.attempt b + Z.of_nat (List.length script)
       <= MaxRetryCount (config c)) ->
    sleeps (trace (loop c l b script)) =
    map (fun k => ForAttempt (backoff.Max b) (backoff.attempt b + Z.of_nat k))
        (seq 0 (List.length script)).
Proof.
  induction script as [|it script IH]; intros Hall b H0 Hbig Hmax;
    [reflexivity|].
  destruct (Hall it (or_introl eq_refl)) as [Hc Hs].
  assert (Hrest : forall it', In it' script ->
            fst (connectionOnce c l (attempt it')) = (false, true) /\
            sleepCancelled it' = false)
    by (intros it' Hin; apply Hall; now right).
  cbn [List.length] in Hbig, Hmax.
  cbn [loop].
  destruct (connectionOnce c l (attempt it)) as [[conn r] er].
  cbn [fst] in Hc. injection Hc as -> ->.
  destruct (afterAttempt_failed c b true) as [Ea Ed]; [lia|].
  rewrite Ea, Ed. cbn [negb orb].
  assert (Eg : (0 <=? MaxRetryCount (config c)) &&
               (MaxRetryCount (config c) <=? backoff.attempt b) = false).
  { destruct (0 <=? MaxRetryCount (config c)) eqn:E0; [|reflexivity].
    apply Z.leb_le in E0. cbn [andb]. apply Z.leb_gt. lia. }
  rewrite Eg, Hs.
  set (b2 := {| backoff.Max := backoff.Max b;
                backoff.attempt := backoff.attempt b + 1 |}).
  cbn [trace sleeps List.length seq map].
  rewrite Z.add_0_r. f_equal.
  rewrite (IH Hrest b2); cbn [backoff.attempt backoff.Max b2]; try lia.
  rewrite <- seq_shift, map_map. apply map_ext. intros k. f_equal. lia.
Qed.

(** While the attempts fail without connecting, stay retriable and the
    budget is not used up, the loop sleeps after each one, and the delay
    after the [k]-th failure (counted from zero) is the schedule's delay
    for attempt [k], capped by the configured maximum retry interval. *)
Theorem consecutive_failures_follow_schedule (c : Client) (l : Lifecycle)
    (script : list Iteration) :
  (forall it, In it script ->
     fst (connectionOnce c l (attempt it)) = (false, true) /\
     sleepCancelled it = false) ->
  Z.of_nat (List.length script) < 2 ^ 53 ->
  (MaxRetryCount (config c) < 0 \/
   Z.of_nat (List.length script) <= MaxRetryCount (config c)) ->
  sleeps (trace (connectionLoop c l script)) =
  map (fun k => ForAttempt (MaxRetryInterval (config c)) (Z.of_nat k))
      (seq 0 (List.length script)).
Proof.
  intros Hall Hbig Hmax. unfold connectionLoop.
  rewrite (loop_schedule c l script Hall); cbn [backoff.new backoff.attempt];
    try lia.
  reflexivity.
Qed.

End RetryBudget.

(** *** [Start], [Close] and [Run] with the loop *)

Section LifecycleAndLoop.

Context {collab : Collaborators}.

(** Once [Close] was called on a started client, or when the caller's
    context was done at [Start], the scope is cancelled: every attempt
    returns [io.EOF] without dialing and is not retried, so the loop makes
    one attempt, closes and returns. *)
Theorem closed_client_stops_loop (c : Client) (parentDone : bool)
    (l0 : Lifecycle) (it : Iteration) (rest : list Iteration) :
  let closed := fst (Close (fst (Start parentDone l0))) in
  let late := fst (Start true l0) in
  (forall w, connectionOnce c closed w = (false, false, Some io_EOF)) /\
  connectionLoop c closed (it :: rest) =
    {| trace := [EvAttempt false false (Some io_EOF); EvClose];
       final := closed; returned := Some None |} /\
  connectionLoop c late (it :: rest) =
    {| trace := [EvAttempt false false (Some io_EOF); EvClose];
       final := fst (Close late); returned := Some None |}.
Proof.
  intros closed late.
  assert (H : forall w, connectionOnce c closed w = (false, false, Some io_EOF)).
  { intros w. unfold connectionOnce. cbn [closed Start Close fst stop cancel cancelled].
    now rewrite orb_true_r. }
  assert (H' : forall w, connectionOnce c late w = (false, false, Some io_EOF)).
  { intros w. unfold connectionOnce. cbn [late Start fst cancelled].
    now rewrite orb_true_r. }
  split; [exact H|]. split.
  - unfold connectionLoop. cbn [loop]. rewrite H. reflexivity.
  - unfold connectionLoop. cbn [loop]. rewrite H'. reflexivity.
Qed.

(** With a proxy whose scheme begins with [socks] but is neither [socks]
    nor [socks5h], the first attempt fails before any dial with an error
    that names the scheme, and the loop closes and returns after it,
    whatever the retry count. *)
Theorem unsupported_proxy_stops_loop (c : Client) (l : Lifecycle)
    (p : url.URL) (it : Iteration) (rest : list Iteration) :
  proxyURL c = Some p ->
  strings.HasPrefix (url.Scheme p) "socks" = true ->
  url.Scheme p <> "socks" -> url.Scheme p <> "socks5h" ->
  ctxDone (attempt it) = false -> cancelled l = false ->
  exists err,
    strings.Contains (Error err) (url.Scheme p) = true /\
    connectionLoop c l (it :: rest) =
      {| trace := [EvAttempt false false (Some err); EvClose];
         final := fst (Close l); returned := Some None |}.
Proof.
  intros Hp Hs H1 H2 Hctx Hcan.
  apply String.eqb_neq in H1, H2.
  exists (errors_New ("unsupported socks proxy type: " ++ url.Scheme p
                      ++ ":// (only socks5h:// or socks:// is supported)")).
  split.
  - apply (Contains_middle "unsupported socks proxy type: " (url.Scheme p)).
  - unfold connectionLoop. cbn [loop]. unfold connectionOnce.
    rewrite Hctx, Hcan, Hp. cbn [orb]. unfold setProxy.
    rewrite Hs, H1, H2. reflexivity.
Qed.

Lemma fold_Group_done (finished : list (option error)) :
  forall g,
    err (fold_left (fun g r => Group_done r g) finished g) =
      match err g with Some e => Some e | None => firstError finished end /\
    running (fold_left (fun g r => Group_done r g) finished g) =
      (running g - List.length finished)%nat.
Proof.
  induction finished as [|r finished IH]; intros g.
  - cbn. split; [now destruct (err g)|lia].
  - cbn [fold_left firstError List.length].
    destruct (IH (Group_done r g)) as [He Hr]. rewrite He, Hr.
    unfold Group_done. cbn [err running]. split; [|lia].
    destruct (err g); [reflexivity|]. now destruct r.
Qed.

(** [Run] never panics: it starts the two goroutines and waits.  It is
    blocked until both have returned, and then returns the first error one
    of them returned, in the order they returned, or no error. *)
Theorem Run_reports_first_error (l : Lifecycle)
    (finished : list (option error)) :
  Client_Run l finished <> Panics /\
  ((List.length finished < 2)%nat -> Client_Run l finished = Blocks) /\
  ((2 <= List.length finished)%nat ->
   Client_Run l finished = Returns (firstError finished)).
Proof.
  unfold Client_Run. cbn [Start andThen deref eg].
  set (g := {| running := 2; err := None |}).
  destruct (fold_Group_done finished g) as [He Hr].
  unfold Group_Wait. rewrite Hr. cbn [running g err] in *.
  split; [|split].
  - destruct (2 - List.length finished)%nat; discriminate.
  - intros Hlt.
    destruct (2 - List.length finished)%nat eqn:E; [lia|reflexivity].
  - intros Hge.
    destruct (2 - List.length finished)%nat eqn:E; [|lia].
    now rewrite He.
Qed.

End LifecycleAndLoop.

(** ** Concrete runs *)

Lemma Sample_dials (h : option error) (s : list Byte.byte * option error)
    (b : option error) (c : Client) :
  proxyURL c = None ->
  dials c Sample.started (Sample.dialled h s b).
Proof.
  intros Hp. unfold dials. repeat split.
  intros p H. rewrite Hp in H. discriminate H.
Defined.

(** The three classes of handshake errors on the sample client. *)
Lemma handshake_failure_classified_witness :
  let auth := errors_New "ssh: handshake failed: ssh: unable to authenticate, attempted methods [none password]" in
  let reset := {| Error := "read tcp: connection reset by peer"; Temporary := Some false |} in
  let eof := errors_New "ssh: handshake failed: EOF" in
  let try e := connectionOnce Sample.client Sample.started
                 (Sample.dialled (Some e) ([], None) None) in
  try auth = (false, false, Some auth) /\
  try reset = (false, false, Some reset) /\
  try eof = (false, true, Some eof).
Proof.
  intros auth reset eof try.
  pose proof (fun e =>
    handshake_failure_classified Sample.client Sample.started
      (Sample.dialled (Some e) ([], None) None) e
      (Sample_dials _ _ _ Sample.client eq_refl) eq_refl) as H.
  split; [|split].
  - apply (proj1 (H auth)). reflexivity.
  - apply (proj1 (proj2 (H reset))). reflexivity.
  - apply (proj2 (proj2 (H eof))); [reflexivity|discriminate].
Defined.

(** A failed [config] request, and a rejection payload spelling [no]. *)
Lemma negotiation_failure_fatal_witness :
  let closed := errors_New "ssh: disconnect" in
  let payload := [Byte.x6e; Byte.x6f] in
  connectionOnce Sample.client Sample.started
    (Sample.dialled None ([], Some closed) None) = (false, false, Some closed) /\
  exists err,
    connectionOnce Sample.client Sample.started
      (Sample.dialled None (payload, None) None) = (false, false, Some err) /\
    Error err = "no".
Proof.
  intros closed payload. split.
  - apply (proj1 (negotiation_failure_fatal Sample.client Sample.started
                    (Sample.dialled None ([], Some closed) None)
                    (Sample_dials _ _ _ Sample.client eq_refl) eq_refl) [] closed eq_refl).
  - apply (proj2 (negotiation_failure_fatal Sample.client Sample.started
                    (Sample.dialled None (payload, None) None)
                    (Sample_dials _ _ _ Sample.client eq_refl) eq_refl) payload eq_refl).
    discriminate.
Defined.

(** The fingerprint scenario: [ab:cd] is configured; the key with the
    fingerprint [ab:cd:ef:00] is accepted, the key with [zz:zz] is refused
    with an error that holds [zz:zz]. *)
Lemma verifyServer_prefix_witness :
  @verifyServer Sample.collaborators Sample.client "ab:cd:ef:00" = None /\
  exists err,
    @verifyServer Sample.collaborators Sample.client "zz:zz" = Some err /\
    Error err = "Invalid fingerprint (zz:zz)" /\
    strings.Contains (Error err) "zz:zz" = true.
Proof.
  split.
  - apply (proj2 (@verifyServer_prefix Sample.collaborators Sample.client
                    "ab:cd:ef:00")).
    right. now exists ":ef:00".
  - apply (proj1 (@verifyServer_prefix Sample.collaborators Sample.client
                    "zz:zz")).
    + discriminate.
    + intros [rest H]. discriminate H.
Defined.

(** [Close] three times on a new client, and three times after [Start]. *)
Lemma Close_idempotent_safe_witness :
  CloseTimes 3 fresh = (fresh, [Returns None; Returns None; Returns None]) /\
  snd (CloseTimes 3 Sample.started) =
    [Returns None; Returns None; Returns None] /\
  fst (CloseTimes 3 Sample.started) = fst (Close Sample.started).
Proof.
  destruct Close_idempotent_safe as (_ & Hfresh & Hn).
  split; [|split].
  - rewrite (surjective_pairing (CloseTimes 3 fresh)).
    rewrite (proj1 (Hn 3 fresh)), (proj2 (Hn 2 fresh)).
    now rewrite (Hfresh fresh eq_refl).
  - apply (proj1 (Hn 3 Sample.started)).
  - apply (proj2 (Hn 2 Sample.started)).
Defined.

(** [Wait] on a new client panics; [Close] on it returns. *)
Lemma Wait_before_Start_panics_witness :
  Wait fresh = Panics /\ Close fresh = (fst (Close fresh), Returns None).
Proof.
  exact (proj1 Wait_before_Start_panics fresh eq_refl).
Defined.

#[local] Existing Instance Sample.collaborators.

(** C9, as stated, fails: for the server [example.com] and a retry interval
    of zero, the caller's [Config] holds [http://example.com] and five minutes
    after the call. *)
Lemma NewClient_mutates_config :
  let c := Sample.cfg "example.com" [] 0 in
  Server (fst (NewClient c)) = "http://example.com" /\
  Server c = "example.com" /\
  MaxRetryInterval (fst (NewClient c)) = 300000000000%Z /\
  MaxRetryInterval c = 0%Z /\
  fst (NewClient c) <> c.
Proof. repeat split. discriminate. Qed.

(** A server with a scheme and an interval of two seconds: the [Config] is
    left as it was. *)
Lemma NewClient_config_effect_witness :
  let c := {| Fingerprint := ""; Auth := ""; KeepAlive := 0%Z;
              MaxRetryCount := 3%Z; MaxRetryInterval := (2 * Second)%Z;
              Server := "https://example.com"; Proxy := ""; Remotes := [];
              Headers := []; DialContext := None |} in
  fst (NewClient c) = c.
Proof.
  intros c.
  apply (proj2 (proj2 (proj2 (proj2 (proj2 (proj2 (proj2 (proj2 (proj2 (proj2
           (NewClient_config_effect c))))))))))).
  - reflexivity.
  - discriminate.
Defined.

(** C5, as stated, fails: the third spec does not decode, yet the error is
    the one of the second stdio-flagged spec and names no spec. *)
Lemma NewClient_stdio_error_first :
  let c := Sample.cfg "example.com"
             ["stdio:a:22"; "stdio:b:22"; "1:2:3:4:5"] 0 in
  In "1:2:3:4:5" (Remotes c) /\
  DecodeRemote "1:2:3:4:5" = inl "Invalid remote" /\
  snd (NewClient c) = inl OnlyOneStdio /\
  (forall s e, snd (NewClient c) <> inl (DecodeRemoteError s e)).
Proof.
  cbv zeta. split; [|split; [|split]].
  - cbn. auto.
  - reflexivity.
  - reflexivity.
  - intros s e H. discriminate H.
Qed.

(** An undecodable spec after one stdio-flagged spec is named by the error;
    two stdio-flagged specs make construction fail. *)
Lemma NewClient_remote_errors_witness :
  let c := Sample.cfg "example.com" ["stdio:a:22"; "1:2:3:4:5"; "3000"] 0 in
  let c2 := Sample.cfg "example.com" ["stdio:a:22"; "stdio:b:22"] 0 in
  snd (NewClient c) = inl (DecodeRemoteError "1:2:3:4:5" "Invalid remote") /\
  (exists e, snd (NewClient c) = inl e) /\
  (exists e, snd (NewClient c2) = inl e).
Proof.
  intros c c2.
  destruct (NewClient_remote_errors c) as (H1 & _ & H3).
  destruct (NewClient_remote_errors c2) as (_ & H2 & _).
  split; [|split].
  - refine (proj1 (H3 ["stdio:a:22"] "1:2:3:4:5" ["3000"] "Invalid remote"
                      _ eq_refl eq_refl eq_refl _ eq_refl)).
    cbv. lia.
  - apply H1. exists "1:2:3:4:5". split; [cbn; auto|reflexivity].
  - apply H2. cbv. lia.
Defined.

(** The scenarios of the resolved endpoint: a bare host gets [ws] and [:80],
    an [https] server [wss] and [:443]. *)
Example endpoint_example_com :
  let c := Sample.cfg "example.com" [] 0 in
  exists u,
    resolveEndpoint (Server (fst (NewClient c))) = inr u /\
    url.Scheme u = "ws" /\ url.Host u = "example.com:80".
Proof. eexists. repeat split. Qed.

Example endpoint_https :
  let c := Sample.cfg "https://example.com" [] 0 in
  exists u,
    resolveEndpoint (Server (fst (NewClient c))) = inr u /\
    url.Scheme u = "wss" /\ url.Host u = "example.com:443".
Proof. eexists. repeat split. Qed.

(** A server written with the scheme [wss] does not begin with [http]: it is
    prefixed like a bare host, and [wss:] is read as the host. *)
Example endpoint_wss_server :
  let c := Sample.cfg "wss://example.com" [] 0 in
  exists u,
    resolveEndpoint (Server (fst (NewClient c))) = inr u /\
    url.Scheme u = "ws" /\ url.Host u = "wss::80" /\
    url.Path u = "//example.com".
Proof. eexists. repeat split. Qed.

(** C4, at a server string that has no scheme but begins with the bytes
    [http]: the host name [httpbin.org].  No default scheme is applied; the
    string parses as a path, and the client that [NewClient] returns has an
    endpoint with an empty scheme and the host [:80]. *)
Theorem default_scheme_missed_for_http_host :
  let c := Sample.cfg "httpbin.org" [] 0 in
  url.getScheme "httpbin.org" = inr ("", "httpbin.org") /\
  Server (fst (NewClient c)) = "httpbin.org" /\
  exists client,
    snd (NewClient c) = inr client /\
    url.Scheme (server client) = "" /\
    url.Host (server client) = ":80" /\
    url.Path (server client) = "httpbin.org".
Proof.
  cbv zeta. split; [reflexivity|]. split; [reflexivity|].
  eexists. split; [reflexivity|]. repeat split.
Qed.

(** With no retries allowed, one refused dial ends the loop. *)
Lemma single_attempt_when_no_retries_witness :
  let it := {| attempt := Sample.dialFails; sleepCancelled := false |} in
  connectionLoop Sample.client Sample.started [it; it] =
    {| trace := [EvAttempt false true (Some Sample.refused); EvClose];
       final := {| stop := true;
                   eg := Some {| running := 2; err := None |};
                   cancelled := true |};
       returned := Some None |}.
Proof.
  intros it.
  refine (proj1 (single_attempt_when_no_retries Sample.client Sample.started
                   it [it] Sample.refused eq_refl eq_refl eq_refl _ eq_refl)).
  intros p H. discriminate H.
Defined.

(** Five failures were counted; a session connects and ends with an error:
    the delay that follows is the first-attempt delay, 100ms. *)
Lemma backoff_reset_on_connected_witness :
  let b := {| backoff.Max := (5 * Minute)%Z; backoff.attempt := 5 |} in
  let eof := errors_New "EOF" in
  let it := {| attempt := Sample.dialled None ([], None) (Some eof);
               sleepCancelled := false |} in
  trace (loop Sample.retrying Sample.started b [it]) =
    [EvAttempt true true (Some eof); EvSleep 100000000%Z] /\
  100000000%Z = firstDelay Sample.retrying.
Proof.
  intros b eof it. split; [reflexivity|].
  refine (proj2 (backoff_reset_on_connected Sample.retrying)
            [it] Sample.started b [] true (Some eof) (EvSleep 100000000%Z) []
            100000000%Z eq_refl eq_refl _).
  left. reflexivity.
Defined.

(** A run of the retrying client: two refused dials, a session that ends,
    and a refused dial again.  The delays are 100ms, 200ms, then 100ms after
    the session, and 200ms after the failure that follows it. *)
Example reconnect_run :
  let fails := {| attempt := Sample.dialFails; sleepCancelled := false |} in
  let session := {| attempt := Sample.dialled None ([], None) None;
                    sleepCancelled := false |} in
  trace (connectionLoop Sample.retrying Sample.started
           [fails; fails; session; fails]) =
    [EvAttempt false true (Some Sample.refused); EvSleep 100000000%Z;
     EvAttempt false true (Some Sample.refused); EvSleep 200000000%Z;
     EvAttempt true true None; EvSleep 100000000%Z;
     EvAttempt false true (Some Sample.refused); EvSleep 200000000%Z].
Proof. reflexivity. Qed.

(** The bare host [example.com] does not begin with [http]. *)
Lemma endpoint_of_unprefixed_server_witness :
  exists u,
    resolveEndpoint (Server (fst (NewClient (Sample.cfg "example.com" [] 0))))
      = inr u /\
    url.Scheme u = "ws" /\ matchPort (url.Host u) = true.
Proof.
  eexists. split; [reflexivity|].
  refine (endpoint_of_unprefixed_server (Sample.cfg "example.com" [] 0) _
            eq_refl eq_refl).
Defined.


(** *** Runs for the further properties *)


(** A SOCKS remote and a reversed remote: both are decoded, in order. *)
Lemma NewClient_remotes_decoded_witness :
  let c := Sample.cfg "example.com" ["3000:socks"; "R:2222:localhost:22"] 0 in
  exists client,
    snd (NewClient c) = inr client /\
    map inr (computed_Remotes (computed client)) =
      [DecodeRemote "3000:socks"; DecodeRemote "R:2222:localhost:22"].
Proof.
  intros c. eexists. split; [reflexivity|].
  exact (proj1 (NewClient_remotes_decoded c _ eq_refl)).
Defined.

(** The spec [3000:socks] alone: a SOCKS remote and no reversed one, so the
    tunnel has no SOCKS; with a reversed remote beside it, it has. *)
Lemma NewClient_tunnel_flags_witness :
  let c1 := Sample.cfg "example.com" ["3000:socks"] 0 in
  let c2 := Sample.cfg "example.com" ["3000:socks"; "R:2222:localhost:22"] 0 in
  (exists client,
     snd (NewClient c1) = inr client /\
     existsb Socks (computed_Remotes (computed client)) = true /\
     Outbound (tunnel client) = false /\
     tunnel_Socks (tunnel client) = false) /\
  (exists client,
     snd (NewClient c2) = inr client /\
     Outbound (tunnel client) = true /\
     tunnel_Socks (tunnel client) = true).
Proof.
  intros c1 c2. split.
  - destruct (snd (NewClient c1)) as [e|client] eqn:E; [discriminate E|].
    exists client. split; [reflexivity|].
    destruct (NewClient_tunnel_flags c1 client E) as (_ & H1 & _ & H2).
    injection E as <-.
    split; [reflexivity|]. split; [exact H1|]. apply H2. reflexivity.
  - destruct (snd (NewClient c2)) as [e|client] eqn:E; [discriminate E|].
    exists client. split; [reflexivity|].
    destruct (NewClient_tunnel_flags c2 client E) as (_ & H1 & H2 & _).
    injection E as <-.
    split; [exact H1|exact H2].
Defined.

Lemma NewClient_second_stdio_witness :
  snd (NewClient (Sample.cfg "example.com"
                    ["stdio:a:22"; "3000"; "stdio:b:22"] 0)) = inl OnlyOneStdio.
Proof.
  refine (NewClient_second_stdio
            (Sample.cfg "example.com" ["stdio:a:22"; "3000"; "stdio:b:22"] 0)
            _ eq_refl eq_refl _).
  cbv. lia.
Defined.

(** Without remotes and without a proxy the sample configuration succeeds;
    an unparsable proxy makes it fail. *)
Lemma NewClient_succeeds_iff_witness :
  exists client, snd (NewClient (Sample.cfg "example.com" [] 0)) = inr client.
Proof.
  apply (proj2 (NewClient_succeeds_iff (Sample.cfg "example.com" [] 0))).
  split; [eexists; reflexivity|]. split; [reflexivity|].
  split; [cbv; lia|]. now left.
Defined.

(** An [https] server with a port keeps it; one without gets [:443]. *)
Lemma endpoint_of_explicit_scheme_witness :
  (exists u,
     resolveEndpoint (Server (fst (NewClient
        (Sample.cfg "https://example.com:8443/path" [] 0)))) = inr u /\
     url.Scheme u = "wss" /\ url.Host u = "example.com:8443") /\
  (exists u,
     resolveEndpoint (Server (fst (NewClient
        (Sample.cfg "http://example.com" [] 0)))) = inr u /\
     url.Scheme u = "ws" /\ url.Host u = "example.com:80").
Proof.
  split.
  - eexists. split; [reflexivity|].
    destruct (endpoint_of_explicit_scheme
                (Sample.cfg "https://example.com:8443/path" [] 0)
                "example.com:8443/path" _ _ (or_intror eq_refl) eq_refl eq_refl)
      as (_ & H1 & _ & H2 & _).
    split; [exact H1|]. apply H2. reflexivity.
  - eexists. split; [reflexivity|].
    destruct (endpoint_of_explicit_scheme
                (Sample.cfg "http://example.com" [] 0)
                "example.com" _ _ (or_introl eq_refl) eq_refl eq_refl)
      as (_ & H1 & _ & _ & H2).
    split; [exact H1|]. apply H2. reflexivity.
Defined.

(** The proxy schemes [http], [socks5h] and [socks5]: the last is refused. *)
Lemma setProxy_by_scheme_witness :
  let proxy scheme :=
    {| url.Scheme := scheme; url.Opaque := "";
       url.User := Some {| url.username := "me"; url.password := None |};
       url.Host := "proxy.local:1080"; url.Path := ""; url.RawQuery := "";
       url.Fragment := "" |} in
  setProxy (proxy "http") Sample.dialFails = inr (ConnectProxy (proxy "http")) /\
  setProxy (proxy "socks5h") Sample.dialFails =
    inr (Socks5 "proxy.local:1080" (Some ("me", ""))) /\
  exists err,
    setProxy (proxy "socks5") Sample.dialFails = inl err /\
    strings.Contains (Error err) "socks5" = true.
Proof.
  intros proxy. split; [|split].
  - apply (proj1 (setProxy_by_scheme (proxy "http") Sample.dialFails)).
    reflexivity.
  - apply (proj1 (proj2 (setProxy_by_scheme (proxy "socks5h") Sample.dialFails))).
    now right.
  - destruct (proj2 (proj2 (setProxy_by_scheme (proxy "socks5") Sample.dialFails))
                eq_refl) as (err & H1 & _ & H2); try discriminate.
    exists err. split; [exact H1|exact H2].
Defined.

(** A session that ends with a network error marked non-temporary: the
    attempt was connected and is not retried. *)
Lemma connected_only_after_negotiation_witness :
  let reset := {| Error := "read tcp: connection reset by peer";
                  Temporary := Some false |} in
  let w := Sample.dialled None ([], None) (Some reset) in
  snd (connectionOnce Sample.client Sample.started w) = Some reset /\
  snd (fst (connectionOnce Sample.client Sample.started w)) = false.
Proof.
  intros reset w.
  destruct (connected_only_after_negotiation Sample.client Sample.started w
              eq_refl) as (_ & _ & _ & _ & _ & H1 & H2).
  split; [exact H1|exact H2].
Defined.

(** A handshake that ends with [EOF]: retriable, and the error returned is
    the handshake's. *)
Lemma failed_attempt_outcome_witness :
  let eof := errors_New "ssh: handshake failed: EOF" in
  let w := Sample.dialled (Some eof) ([], None) None in
  exists err,
    snd (connectionOnce Sample.client Sample.started w) = Some err /\
    handshake w = Some err.
Proof.
  intros eof w.
  destruct (failed_attempt_outcome Sample.client Sample.started w eq_refl)
    as (err & H1 & H2).
  destruct (H2 eq_refl) as (_ & _ & [Hd|(_ & Hh & _)]); [discriminate Hd|].
  exists err. split; [exact H1|exact Hh].
Defined.

(** A refused dial, then a refused dial with the sleep cancelled. *)
Lemma connectionLoop_exit_witness :
  let script := [ {| attempt := Sample.dialFails; sleepCancelled := false |};
                  {| attempt := Sample.dialFails; sleepCancelled := true |};
                  {| attempt := Sample.dialFails; sleepCancelled := false |} ] in
  returned (connectionLoop Sample.retrying Sample.started script) = Some None /\
  attempts (trace (connectionLoop Sample.retrying Sample.started script)) <= 3.
Proof.
  intros script. split; [reflexivity|].
  exact (proj1 (proj2 (connectionLoop_exit Sample.retrying Sample.started
                         script None eq_refl))).
Defined.

(** Retries without end: a refused dial, a session, a refused dial. *)
Lemma unbounded_retries_never_give_up_witness :
  let fails := {| attempt := Sample.dialFails; sleepCancelled := false |} in
  let session := {| attempt := Sample.dialled None ([], None) None;
                    sleepCancelled := false |} in
  returned (connectionLoop Sample.retrying Sample.started
              [fails; session; fails]) = None /\
  attempts (trace (connectionLoop Sample.retrying Sample.started
                     [fails; session; fails])) = 3.
Proof.
  intros fails session.
  destruct (unbounded_retries_never_give_up Sample.retrying Sample.started
              [fails; session; fails]) as (H1 & H2 & _).
  - reflexivity.
  - intros it [<-|[<-|[<-|[]]]]; split; reflexivity.
  - split; [exact H1|exact H2].
Defined.

(** A budget of two retries and five refused dials: three attempts, and the
    loop has returned. *)
Lemma retry_budget_bounds_attempts_witness :
  let fails := {| attempt := Sample.dialFails; sleepCancelled := false |} in
  let script := [fails; fails; fails; fails; fails] in
  attempts (trace (connectionLoop (Sample.clientWith 2) Sample.started script))
    <= 3 /\
  returned (connectionLoop (Sample.clientWith 2) Sample.started script)
    = Some None.
Proof.
  intros fails script.
  destruct (retry_budget_bounds_attempts (Sample.clientWith 2) Sample.started
              2%Z script) as (H1 & H2).
  - reflexivity.
  - split; [discriminate|reflexivity].
  - intros it [<-|[<-|[<-|[<-|[<-|[]]]]]]; reflexivity.
  - split; [exact H1|]. apply H2. cbv. lia.
Defined.

(** Three refused dials: 100ms, 200ms, 400ms on the sample schedule. *)
Lemma consecutive_failures_follow_schedule_witness :
  let fails := {| attempt := Sample.dialFails; sleepCancelled := false |} in
  sleeps (trace (connectionLoop Sample.retrying Sample.started
                   [fails; fails; fails])) =
  [100000000; 200000000; 400000000]%Z.
Proof.
  intros fails.
  refine (eq_trans
            (consecutive_failures_follow_schedule Sample.retrying
               Sample.started [fails; fails; fails] _ _ _) _).
  - intros it [<-|[<-|[<-|[]]]]; split; reflexivity.
  - reflexivity.
  - left. reflexivity.
  - reflexivity.
Defined.

(** A [socks4] proxy: one attempt, no dial, the client is closed. *)
Lemma unsupported_proxy_stops_loop_witness :
  let c := clientBehind "socks4://proxy.local:1080" in
  let it := {| attempt := Sample.dialFails; sleepCancelled := false |} in
  exists err,
    strings.Contains (Error err) "socks4" = true /\
    connectionLoop c Sample.started [it; it] =
      {| trace := [EvAttempt false false (Some err); EvClose];
         final := fst (Close Sample.started); returned := Some None |}.
Proof.
  intros c it.
  apply (unsupported_proxy_stops_loop c Sample.started
           {| url.Scheme := "socks4"; url.Opaque := ""; url.User := None;
              url.Host := "proxy.local:1080"; url.Path := "";
              url.RawQuery := ""; url.Fragment := "" |} it [it]);
    try reflexivity; discriminate.
Defined.

(** A started client is closed, and the world offers a dial that would
    succeed: the loop makes one attempt, which ends with [io.EOF]. *)
Lemma closed_client_stops_loop_witness :
  let it := {| attempt := Sample.dialled None ([], None) None;
               sleepCancelled := false |} in
  trace (connectionLoop Sample.retrying (fst (Close Sample.started)) [it; it]) =
    [EvAttempt false false (Some io_EOF); EvClose].
Proof.
  intros it.
  exact (f_equal trace
           (proj1 (proj2 (closed_client_stops_loop Sample.retrying false fresh
                            it [it])))).
Defined.

(** The loop returns no error and the listener binder fails: [Run] reports
    the binder's error, whichever returned first; with one goroutine still
    running it is blocked. *)
Lemma Run_reports_first_error_witness :
  let e := errors_New "listen tcp: address already in use" in
  Client_Run fresh [None; Some e] = Returns (Some e) /\
  Client_Run fresh [Some e; None] = Returns (Some e) /\
  Client_Run fresh [None] = Blocks.
Proof.
  intros e. split; [|split].
  - apply (proj2 (proj2 (Run_reports_first_error fresh [None; Some e]))).
    cbn. lia.
  - apply (proj2 (proj2 (Run_reports_first_error fresh [Some e; None]))).
    cbn. lia.
  - apply (proj1 (proj2 (Run_reports_first_error fresh [None]))).
    cbn. lia.
Defined.
